(** * PACS NM retriever: a shallow embedding of [pacs_nm_retriever.py]

    The development follows the Python module top to bottom:

    - [PyStr]     the string primitives the script relies on
                  ([str.isalnum], [in], [endswith], [split], [strip], [int]);
    - [Calendar]  [datetime.now() - timedelta(days=30)] and [strftime('%Y%m%d')];
    - [FileSink]  the output directory as a tree and the [.dcm] rename pass of
                  [_retrieve_with_get];
    - [Retriever] the class [PACSNMRetriever] and the date handling of [main],
                  with the DICOM peer and the external tool given as scripts
                  (what the peer answers, whether a call raises) and every
                  observable action recorded in a trace of events;
    - [Main]      [main]: validation of the arguments, construction of the
                  retriever, the run and the exit status.

    Strings are Rocq [string]s; a character is read as a code point of the
    Latin-1 block (0..255), on which the Python predicates are tabulated. *)

From Stdlib Require Import ZArith List String Ascii Bool Lia Arith.
From Stdlib Require Import DecimalString.
Import ListNotations.

Local Open Scope string_scope.
Local Open Scope list_scope.

(* ================================================================== *)
(** ** Python string primitives *)
(* ================================================================== *)

Module PyStr.

Definition code (c : ascii) : nat := nat_of_ascii c.

Definition between (lo hi : nat) (c : ascii) : bool :=
  (lo <=? code c)%nat && (code c <=? hi)%nat.

Definition is_code (n : nat) (c : ascii) : bool := (code c =? n)%nat.

(** ['0'..'9'] *)
Definition isdecimal (c : ascii) : bool := between 48 57 c.

(** [str.isalpha] on 0..255: the ASCII letters, the ordinal indicators,
    the micro sign and the accented Latin-1 letters. *)
Definition isalpha (c : ascii) : bool :=
  between 65 90 c || between 97 122 c
  || is_code 170 c || is_code 181 c || is_code 186 c
  || between 192 214 c || between 216 246 c || between 248 255 c.

(** [str.isnumeric] on 0..255: the decimal digits, the superscripts
    1, 2, 3 and the vulgar fractions. *)
Definition isnumeric (c : ascii) : bool :=
  isdecimal c || is_code 178 c || is_code 179 c || is_code 185 c
  || between 188 190 c.

(** [c.isalnum()] *)
Definition isalnum (c : ascii) : bool := isalpha c || isnumeric c.

(** [c.isspace()] on 0..255, the set [str.strip()] and [int()] remove. *)
Definition isspace (c : ascii) : bool :=
  between 9 13 c || between 28 32 c || is_code 133 c || is_code 160 c.

(** [needle in hay] *)
Fixpoint contains (needle hay : string) : bool :=
  prefix needle hay
  || match hay with
     | EmptyString => false
     | String _ rest => contains needle rest
     end.

(** [s.endswith(suffix)]: some tail of [s] is [suffix]. *)
Fixpoint endswith (s suffix : string) : bool :=
  String.eqb s suffix
  || match s with
     | EmptyString => false
     | String _ rest => endswith rest suffix
     end.

(** The line feed, ['\n']. *)
Definition newline : ascii := "010".

(** [s.split(sep)] for a one-character separator: always at least one
    field, empty fields are kept. *)
Fixpoint split (sep : ascii) (s : string) : list string :=
  match s with
  | EmptyString => [EmptyString]
  | String c rest =>
      if Ascii.eqb c sep then EmptyString :: split sep rest
      else match split sep rest with
           | [] => [String c EmptyString]
           | field :: fields => String c field :: fields
           end
  end.

Fixpoint lstrip (s : string) : string :=
  match s with
  | EmptyString => EmptyString
  | String c rest => if isspace c then lstrip rest else s
  end.

Fixpoint rstrip (s : string) : string :=
  match s with
  | EmptyString => EmptyString
  | String c rest =>
      match rstrip rest with
      | EmptyString => if isspace c then EmptyString else String c EmptyString
      | kept => String c kept
      end
  end.

(** [s.strip()] *)
Definition strip (s : string) : string := rstrip (lstrip s).

Definition digit_value (c : ascii) : Z := Z.of_nat (code c - 48).

(** The digit part of an [int()] literal: decimal digits, single
    underscores allowed between two digits only. [after_digit] tells
    whether the previous character was a digit. *)
Fixpoint int_digits (s : string) (acc : Z) (after_digit : bool) : option Z :=
  match s with
  | EmptyString => if after_digit then Some acc else None
  | String c rest =>
      if isdecimal c then int_digits rest (10 * acc + digit_value c)%Z true
      else if Ascii.eqb c "_" && after_digit then int_digits rest acc false
      else None
  end.

(** [int(s)]: surrounding white space is dropped, one optional sign,
    then the digits. [None] stands for [ValueError]. *)
Definition py_int (s : string) : option Z :=
  match strip s with
  | String "-" digits => option_map Z.opp (int_digits digits 0 false)
  | String "+" digits => int_digits digits 0 false
  | digits => int_digits digits 0 false
  end.

(** [str(n)] for an integer. *)
Definition str_of_Z (n : Z) : string := NilZero.string_of_int (Z.to_int n).

(** [sep.join(parts)] *)
Fixpoint join (sep : string) (parts : list string) : string :=
  match parts with
  | [] => EmptyString
  | [p] => p
  | p :: rest => p ++ sep ++ join sep rest
  end.

(** Truthiness of an optional string: [None] and [''] are false. *)
Definition truthy (o : option string) : bool :=
  match o with
  | Some s => negb (String.eqb s EmptyString)
  | None => false
  end.

(** [a or b] where [b] is a string literal. *)
Definition or_else (o : option string) (default : string) : string :=
  match o with
  | Some s => if String.eqb s EmptyString then default else s
  | None => default
  end.

End PyStr.

(* ================================================================== *)
(** ** Dates: [datetime.now()], [timedelta(days=30)], [strftime('%Y%m%d')] *)
(* ================================================================== *)

Module Calendar.

Local Open Scope Z_scope.

(** A calendar day is its proleptic Gregorian ordinal ([date.toordinal()],
    day 1 is 0001-01-01); subtracting [timedelta(days=n)] subtracts [n].
    [civil] converts an ordinal to (year, month, day). *)
Definition civil (ordinal : Z) : Z * Z * Z :=
  let z := ordinal + 305 in
  let era := z / 146097 in
  let doe := z - era * 146097 in
  let yoe := (doe - doe / 1460 + doe / 36524 - doe / 146096) / 365 in
  let doy := doe - (365 * yoe + yoe / 4 - yoe / 100) in
  let mp := (5 * doy + 2) / 153 in
  let d := doy - (153 * mp + 2) / 5 + 1 in
  let m := if mp <? 10 then mp + 3 else mp - 9 in
  let y := yoe + era * 400 + (if m <=? 2 then 1 else 0) in
  (y, m, d).

Fixpoint zeros (n : nat) : string :=
  match n with
  | O => EmptyString
  | S k => String "0" (zeros k)
  end.

(** Decimal text of [n], left-padded with zeros to [width] characters. *)
Definition zero_pad (width : nat) (n : Z) : string :=
  let digits := PyStr.str_of_Z n in
  zeros (width - String.length digits) ++ digits.

(** [d.strftime('%Y%m%d')] *)
Definition strftime_Ymd (ordinal : Z) : string :=
  let '(y, m, d) := civil ordinal in
  zero_pad 4 y ++ zero_pad 2 m ++ zero_pad 2 d.

(** [find_nm_studies], lines 197-200: the trailing 30-day window. *)
Definition last_30_days (now : Z) : string :=
  let end_date := now in
  let start_date := end_date - 30 in
  strftime_Ymd start_date ++ "-" ++ strftime_Ymd end_date.

End Calendar.

(* ================================================================== *)
(** ** The output directory and the [.dcm] rename pass *)
(* ================================================================== *)

Module FileSink.

Local Set Warnings "-register-all".

(** A directory as [os.walk] reports it: the regular files (name and
    content) and the sub-directories (name and directory). *)
Inductive dir : Type :=
| Dir (files : list (string * string)) (subdirs : list (string * dir)).

Definition has_name {A : Type} (name : string) (entries : list (string * A)) : bool :=
  existsb (fun e => String.eqb (fst e) name) entries.

(** [old_path.rename(new_path)] inside one directory, POSIX [rename(2)]:
    it raises when the target is a directory or the source is gone
    ([None]); an existing target file is replaced; the renamed file keeps
    its place in the listing. *)
Definition rename {A : Type} (subdirs : list (string * A)) (old new : string)
    (files : list (string * string)) : option (list (string * string)) :=
  if has_name new subdirs then None
  else if negb (has_name old files) then None
  else if String.eqb old new then Some files
  else Some (map (fun e => if String.eqb (fst e) old then (new, snd e) else e)
                 (filter (fun e => negb (String.eqb (fst e) new)) files)).

(** Body of the inner loop of lines 408-416 for one [filename]; the
    accumulator is the directory's files and [renamed_count]. A failed
    rename is logged and skipped. *)
Definition rename_step {A : Type} (subdirs : list (string * A))
    (acc : list (string * string) * nat) (filename : string)
    : list (string * string) * nat :=
  if PyStr.endswith filename ".dcm" then acc
  else match rename subdirs filename (filename ++ ".dcm") (fst acc) with
       | Some files' => (files', S (snd acc))
       | None => acc
       end.

(** The inner loop over the [files] that [os.walk] listed for one
    directory (a snapshot taken before the first rename). *)
Definition rename_pass {A : Type} (subdirs : list (string * A))
    (files : list (string * string)) : list (string * string) * nat :=
  fold_left (rename_step subdirs) (map fst files) (files, O).

(** The whole walk of lines 407-416: each directory's files are passed
    over, then the walk descends into its sub-directories. *)
Fixpoint repair (d : dir) : dir :=
  match d with
  | Dir files subdirs =>
      Dir (fst (rename_pass subdirs files))
          (map (fun e => (fst e, repair (snd e))) subdirs)
  end.

(** [renamed_count] at the end of the walk. *)
Fixpoint renamed_count (d : dir) : nat :=
  match d with
  | Dir files subdirs =>
      snd (rename_pass subdirs files)
      + list_sum (map (fun e => renamed_count (snd e)) subdirs)
  end.

(** The pass leaves a file of this name alone: it has the suffix, or
    its target name is taken by a directory. *)
Definition stuck {A : Type} (subdirs : list (string * A)) (name : string) : Prop :=
  PyStr.endswith name ".dcm" = true \/ has_name (name ++ ".dcm") subdirs = true.

(** No rename of [name] can hit a directory. *)
Definition free {A : Type} (subdirs : list (string * A)) (name : string) : Prop :=
  PyStr.endswith name ".dcm" = true \/ has_name (name ++ ".dcm") subdirs = false.

(** Every file name of the tree satisfies [p]. *)
Fixpoint all_files (p : string -> bool) (d : dir) : bool :=
  match d with
  | Dir files subdirs =>
      forallb (fun e => p (fst e)) files
      && forallb (fun e => all_files p (snd e)) subdirs
  end.

(** No rename of the pass can fail: no file lacking the suffix has a
    sibling directory that bears its target name. *)
Fixpoint no_clash (d : dir) : bool :=
  match d with
  | Dir files subdirs =>
      forallb (fun e => PyStr.endswith (fst e) ".dcm"
                        || negb (has_name (fst e ++ ".dcm") subdirs)) files
      && forallb (fun e => no_clash (snd e)) subdirs
  end.

(** The name the pass leaves a file under: its own when it has the
    suffix, its own again when a directory bears its target name (the
    rename is refused), its target name otherwise. *)
Definition final_name {A : Type} (subdirs : list (string * A)) (name : string)
    : string :=
  if PyStr.endswith name ".dcm" then name
  else if has_name (name ++ ".dcm") subdirs then name
  else name ++ ".dcm".

(** During the pass over one directory: the final name of [m] is in
    the listing already, or [m] can be renamed and waits in the
    listing for its turn in [names]. *)
Definition settling {A : Type} (subdirs : list (string * A)) (m : string)
    (files : list (string * string)) (names : list string) : Prop :=
  In (final_name subdirs m) (map fst files)
  \/ (PyStr.endswith m ".dcm" = false
      /\ has_name (m ++ ".dcm") subdirs = false
      /\ In m (map fst files) /\ In m names).

(** During the pass over one directory: [m] is the final name of a
    file of the [original] listing, or one of its names that can be
    renamed and is still to come. *)
Definition accounted {A : Type} (subdirs : list (string * A))
    (original : list string) (m : string) (names : list string) : Prop :=
  (exists n, In n original /\ m = final_name subdirs n)
  \/ (PyStr.endswith m ".dcm" = false
      /\ has_name (m ++ ".dcm") subdirs = false
      /\ In m original /\ In m names).

(** Paths of the regular files, relative to the root. *)
Fixpoint file_paths (d : dir) : list (list string) :=
  match d with
  | Dir files subdirs =>
      map (fun e => [fst e]) files
      ++ flat_map (fun e => map (cons (fst e)) (file_paths (snd e))) subdirs
  end.

(** The paths of the regular files with every file under its final
    name. *)
Fixpoint final_paths (d : dir) : list (list string) :=
  match d with
  | Dir files subdirs =>
      map (fun e => [final_name subdirs (fst e)]) files
      ++ flat_map (fun e => map (cons (fst e)) (final_paths (snd e))) subdirs
  end.

(** The name a file bears once it has the suffix. *)
Definition with_suffix (name : string) : string :=
  if PyStr.endswith name ".dcm" then name else name ++ ".dcm".

(** The suffixed name of [m] is in the listing, or [m] itself waits
    there for its turn in [names]. *)
Definition on_its_way (m : string) (files : list (string * string))
    (names : list string) : Prop :=
  In (with_suffix m) (map fst files)
  \/ (PyStr.endswith m ".dcm" = false /\ In m (map fst files) /\ In m names).

Fixpoint with_suffix_path (path : list string) : list string :=
  match path with
  | [] => []
  | [name] => [with_suffix name]
  | d :: rest => d :: with_suffix_path rest
  end.

End FileSink.

(* ================================================================== *)
(** ** The retriever *)
(* ================================================================== *)

Module Retriever.

Import PyStr.
Local Open Scope Z_scope.

(** *** Data *)

(** Value of a multi-valued code-string element such as
    [ModalitiesInStudy]: pydicom hands out a plain [str] for one value and
    a [MultiValue] for several. *)
Inductive value : Type :=
| VStr (s : string)
| VMulti (vs : list string).

(** [bool(v)] *)
Definition value_truthy (v : value) : bool :=
  match v with
  | VStr s => negb (String.eqb s EmptyString)
  | VMulti [] => false
  | VMulti (_ :: _) => true
  end.

(** [repr] of a code string (no quote, no backslash in it). *)
Definition repr (s : string) : string := "'" ++ s ++ "'".

(** [str(v)]; a [MultiValue] prints like a list, the empty one as ['']. *)
Definition value_str (v : value) : string :=
  match v with
  | VStr s => s
  | VMulti [] => EmptyString
  | VMulti vs => "[" ++ join ", " (map repr vs) ++ "]"
  end.

(** An identifier returned by C-FIND. The unique keys the query asks for
    come back with every match; the other attributes are there or not,
    as the archive pleases. *)
Record Dataset : Type := {
  StudyInstanceUID : string;
  SeriesInstanceUID : string;
  ModalitiesInStudy : option value;
  NumberOfStudyRelatedInstances : option Z
}.

(** The dataset of an incoming C-STORE; all four attributes are read
    with [getattr(ds, ..., 'UNKNOWN')]. *)
Record StoredDataset : Type := {
  stored_PatientID : option string;
  stored_StudyInstanceUID : option string;
  stored_SeriesInstanceUID : option string;
  stored_SOPInstanceUID : option string
}.

(** What the local file system answers to one store. *)
Record store_io : Type := {
  mkdir_raises : bool;
  save_raises : bool
}.

(** The attributes of [PACSNMRetriever], with [study_date] as [main]
    sets it. *)
Record config : Type := {
  pacs_host : string;
  pacs_port : Z;
  pacs_aet : string;
  local_aet : string;
  local_port : Z;
  output_dir : string;
  use_study_root : bool;
  dry_run : bool;
  use_c_get : bool;
  study_date : option string
}.

Inductive level : Type := STUDY | SERIES.

(** The dataset [ds] built in [retrieve_study] for one retrieval. *)
Record RetrieveQuery : Type := {
  QueryRetrieveLevel : level;
  query_StudyInstanceUID : string;
  query_SeriesInstanceUID : option string
}.

(** *** The peer and the tool, as scripts *)

(** How a response generator ends: it is exhausted, or it raises. *)
Inductive ending : Type := Exhausted | Raises.

Record stream (A : Type) : Type := {
  items : list A;
  stream_end : ending
}.
Arguments items {A} _.
Arguments stream_end {A} _.

(** [ae.associate(...)] raises, returns an association that is not
    established, or returns an established one on which the request
    yields a stream of responses. *)
Inductive peer (A : Type) : Type :=
| AssociateRaises
| Rejected
| Established (responses : stream A).
Arguments AssociateRaises {A}.
Arguments Rejected {A}.
Arguments Established {A} _.

(** One C-FIND response: the status (absent when the status dataset is
    empty) and the identifier (absent when [None] or empty). *)
Definition find_response : Type := option Z * option Dataset.

(** During a C-MOVE the listener receives objects while the requestor
    iterates over the move responses; the script fixes one interleaving. *)
Inductive move_item : Type :=
| Incoming (ds : StoredDataset) (io : store_io)
| Response (status : option Z).

Inductive listener : Type :=
| ServerRaises
| ServerNone
| ServerUp (p : peer move_item).

(** [shutil.which] and [subprocess.run] for one [getscu] call; [listing]
    is the output directory as the tool leaves it. *)
Inductive tool_run : Type :=
| ToolMissing
| ToolTimeout
| ToolRaises
| ToolExit (returncode : Z) (stdout stderr : string) (listing : FileSink.dir).

Record world : Type := {
  now : Z;
  study_peer : peer find_response;
  series_peer : string -> peer find_response;
  move_listener : string -> string -> listener;
  getscu : string -> string -> tool_run
}.

(** *** Trace *)

Inductive log : Type :=
| LogFindError
| LogAssociateFailed
| LogRetrievedStudies (n : nat) (date : string)
| LogNoStudiesInRange
| LogReturning (n total : nat)
| LogSeriesError
| LogDryRunStudy (study_uid : string)
| LogNoSeries (study_uid : string)
| LogToolMissing
| LogToolFailed (returncode : Z)
| LogToolTimeout
| LogToolError
| LogRenamed (n : nat)
| LogRetrieved (completed : Z)
| LogToolCompleted
| LogServerFailed
| LogServerNone
| LogMoveStatus (status : Z)
| LogMoveAssociateFailed
| LogMoveError
| LogDryRunStore (image_count : Z) (path : list string)
| LogStored (image_count : Z) (path : list string)
| LogSaveFailed (image_count : Z)
| LogNoNMStudies
| LogEstimatedTotal (total_images : Z)
| LogImageLimit (max_images : option Z)
| LogDryRunSummary (image_count : Z)
| LogRetrievalComplete (image_count : Z).

Inductive event : Type :=
| EvAssociate (established : bool)
| EvAssociateRaised
| EvCFind (lvl : level) (key : string)
| EvCMove (q : RetrieveQuery)
| EvRelease
| EvStartServer (port : Z)
| EvShutdown
| EvRunTool (cmd : list string)
| EvMkdir (path : list string)
| EvSave (path : list string)
| EvRenamePass (before after : FileSink.dir)
| EvLog (l : log).

Definition is_fs_write (e : event) : bool :=
  match e with
  | EvMkdir _ | EvSave _ | EvRenamePass _ _ => true
  | _ => false
  end.

Definition is_transport (e : event) : bool :=
  match e with
  | EvCMove _ | EvStartServer _ | EvRunTool _ => true
  | _ => false
  end.

Definition is_study_find (e : event) : bool :=
  match e with
  | EvCFind STUDY _ => true
  | _ => false
  end.

Definition is_series_find (e : event) : bool :=
  match e with
  | EvCFind SERIES _ => true
  | _ => false
  end.

Definition is_release (e : event) : bool :=
  match e with
  | EvRelease => true
  | _ => false
  end.

Definition is_established (e : event) : bool :=
  match e with
  | EvAssociate true => true
  | _ => false
  end.

Definition count (p : event -> bool) (trace : list event) : nat :=
  List.length (filter p trace).

(** *** [handle_store] *)

Definition getattr (field : option string) (default : string) : string :=
  match field with
  | Some v => v
  | None => default
  end.

(** Line 162: keep the characters that are alphanumeric, ['-'] or ['_']. *)
Definition keep (c : ascii) : bool :=
  isalnum c || Ascii.eqb c "-" || Ascii.eqb c "_".

Fixpoint sanitize (s : string) : string :=
  match s with
  | EmptyString => EmptyString
  | String c rest => if keep c then String c (sanitize rest) else sanitize rest
  end.

(** What the handler hands back to the listener. *)
Inductive handled : Type :=
| Returned (status : Z)
| HandlerRaised.

(** [handle_store]: given the counter, returns the new counter, the
    handler's outcome and the events. A path is the list of the
    segments joined with [/]. *)
Definition handle_store (cfg : config) (image_count : Z)
    (ds : StoredDataset) (io : store_io) : Z * handled * list event :=
  let patient_id := getattr (stored_PatientID ds) "UNKNOWN" in
  let study_uid := getattr (stored_StudyInstanceUID ds) "UNKNOWN" in
  let series_uid := getattr (stored_SeriesInstanceUID ds) "UNKNOWN" in
  let sop_uid := getattr (stored_SOPInstanceUID ds) "UNKNOWN" in
  let patient_id := sanitize patient_id in
  let image_count := image_count + 1 in
  if dry_run cfg then
    (image_count, Returned 0x0000,
     [EvLog (LogDryRunStore image_count
               [patient_id; study_uid; series_uid; (sop_uid ++ ".dcm")%string])])
  else
    let save_dir := [output_dir cfg; patient_id; study_uid; series_uid] in
    if mkdir_raises io then
      (image_count, HandlerRaised, [EvMkdir save_dir])
    else
      let filename := (sop_uid ++ ".dcm")%string in
      let filepath := save_dir ++ [filename] in
      if save_raises io then
        (image_count, Returned 0xC000,
         [EvMkdir save_dir; EvSave filepath; EvLog (LogSaveFailed image_count)])
      else
        (image_count, Returned 0x0000,
         [EvMkdir save_dir; EvSave filepath;
          EvLog (LogStored image_count filepath)]).

(** *** [find_nm_studies] *)

(** [status and status.Status in (0xFF00, 0xFF01)] *)
Definition pending (status : option Z) : bool :=
  match status with
  | Some s => (s =? 0xFF00) || (s =? 0xFF01)
  | None => false
  end.

(** Lines 224-227: the identifiers of the pending responses, in order. *)
Fixpoint collect (responses : list find_response) (all_studies : list Dataset)
    : list Dataset :=
  match responses with
  | [] => all_studies
  | (status, identifier) :: rest =>
      if pending status then
        match identifier with
        | Some d => collect rest (all_studies ++ [d])
        | None => collect rest all_studies
        end
      else collect rest all_studies
  end.

(** Lines 247-254: [modalities] is there, is truthy, and its text
    contains ['NM']. *)
Definition has_nm (study : Dataset) : bool :=
  match ModalitiesInStudy study with
  | Some modalities =>
      value_truthy modalities && contains "NM" (value_str modalities)
  | None => false
  end.

(** [limit and len(xs) >= limit] *)
Definition limit_reached (limit : option Z) (len : nat) : bool :=
  match limit with
  | Some l => negb (l =? 0) && (l <=? Z.of_nat len)
  | None => false
  end.

(** Lines 246-260: the filter loop with its [break]. *)
Fixpoint filter_nm (limit : option Z) (all_studies nm_studies : list Dataset)
    : list Dataset :=
  match all_studies with
  | [] => nm_studies
  | study :: rest =>
      if has_nm study then
        let nm_studies := nm_studies ++ [study] in
        if limit_reached limit (List.length nm_studies) then nm_studies
        else filter_nm limit rest nm_studies
      else filter_nm limit rest nm_studies
  end.

(** [xs[:limit]] for any integer [limit]. *)
Definition slice_to {A : Type} (xs : list A) (limit : Z) : list A :=
  if 0 <=? limit then firstn (Z.to_nat limit) xs
  else firstn (Z.to_nat (Z.of_nat (List.length xs) + limit)) xs.

(** Line 263: [nm_studies[:limit] if limit else nm_studies]. *)
Definition up_to_limit {A : Type} (limit : option Z) (xs : list A) : list A :=
  match limit with
  | Some l => if l =? 0 then xs else slice_to xs l
  | None => xs
  end.

(** Lines 195-200: the date the query carries. *)
Definition query_date (now : Z) (study_date : option string) : string :=
  match study_date with
  | Some d => if String.eqb d EmptyString then Calendar.last_30_days now else d
  | None => Calendar.last_30_days now
  end.

Definition find_nm_studies (now : Z) (p : peer find_response)
    (limit : option Z) (study_date : option string)
    : list Dataset * list event :=
  let study_date := query_date now study_date in
  match p with
  | AssociateRaises => ([], [EvAssociateRaised; EvLog LogFindError])
  | Rejected => ([], [EvAssociate false; EvLog LogAssociateFailed])
  | Established responses =>
      let all_studies := collect (items responses) [] in
      match stream_end responses with
      | Raises =>
          ([], [EvAssociate true; EvCFind STUDY study_date; EvLog LogFindError])
      | Exhausted =>
          let trace :=
            [EvAssociate true; EvCFind STUDY study_date; EvRelease;
             EvLog (LogRetrievedStudies (List.length all_studies) study_date)] in
          match all_studies with
          | [] => ([], trace ++ [EvLog LogNoStudiesInRange])
          | _ :: _ =>
              let nm_studies := filter_nm limit all_studies [] in
              let result_studies := up_to_limit limit nm_studies in
              (result_studies,
               trace ++ [EvLog (LogReturning (List.length result_studies)
                                             (List.length all_studies))])
          end
      end
  end.

(** *** [find_nm_series] *)

(** Lines 298-304: the collecting loop; the flag tells whether it left
    through [break]. *)
Fixpoint series_loop (limit : option Z) (responses : list find_response)
    (series : list Dataset) : list Dataset * bool :=
  match responses with
  | [] => (series, false)
  | (status, identifier) :: rest =>
      if pending status then
        match identifier with
        | Some d =>
            let series := series ++ [d] in
            if limit_reached limit (List.length series) then (series, true)
            else series_loop limit rest series
        | None => series_loop limit rest series
        end
      else series_loop limit rest series
  end.

Definition find_nm_series (p : peer find_response) (study_uid : string)
    (limit : option Z) : list Dataset * list event :=
  match p with
  | AssociateRaises => ([], [EvAssociateRaised; EvLog LogSeriesError])
  | Rejected => ([], [EvAssociate false])
  | Established responses =>
      let '(series, broke) := series_loop limit (items responses) [] in
      match broke, stream_end responses with
      | false, Raises =>
          (series, [EvAssociate true; EvCFind SERIES study_uid;
                    EvLog LogSeriesError])
      | _, _ =>
          (series, [EvAssociate true; EvCFind SERIES study_uid; EvRelease])
      end
  end.

(** *** [_retrieve_with_get] *)

Definition level_name (l : level) : string :=
  match l with
  | STUDY => "STUDY"
  | SERIES => "SERIES"
  end.

(** Lines 365-385: the command line of [getscu]. *)
Definition getscu_cmd (cfg : config) (ds : RetrieveQuery) : list string :=
  ["getscu"; "-v"; "-S"; "-aet"; local_aet cfg; "-aec"; pacs_aet cfg;
   pacs_host cfg; str_of_Z (pacs_port cfg);
   "-k"; ("QueryRetrieveLevel=" ++ level_name (QueryRetrieveLevel ds))%string;
   "-k"; ("StudyInstanceUID=" ++ query_StudyInstanceUID ds)%string]
  ++ match QueryRetrieveLevel ds, query_SeriesInstanceUID ds with
     | SERIES, Some series_uid =>
         ["-k"; ("SeriesInstanceUID=" ++ series_uid)%string]
     | _, _ => []
     end
  ++ ["-od"; output_dir cfg].

(** Lines 399-403 for one line of output: the new value of [completed]. *)
Definition completed_step (completed : Z) (line : string) : Z :=
  if contains "Completed Suboperations" line then
    match nth_error (split ":" line) 1 with
    | Some field =>
        match py_int (strip field) with
        | Some n => n
        | None => completed
        end
    | None => completed
    end
  else completed.

(** Lines 397-403: the count the tool printed, [0] when none parses. *)
Definition parse_completed (stdout : string) : Z :=
  fold_left completed_step (split newline stdout) 0.

Definition _retrieve_with_get (cfg : config) (image_count : Z)
    (run : tool_run) (ds : RetrieveQuery) : bool * Z * list event :=
  match run with
  | ToolMissing => (false, image_count, [EvLog LogToolMissing])
  | ToolTimeout =>
      (false, image_count, [EvRunTool (getscu_cmd cfg ds); EvLog LogToolTimeout])
  | ToolRaises =>
      (false, image_count, [EvRunTool (getscu_cmd cfg ds); EvLog LogToolError])
  | ToolExit returncode stdout stderr listing =>
      if returncode =? 0 then
        let completed := parse_completed stdout in
        let renamed := FileSink.renamed_count listing in
        let trace :=
          [EvRunTool (getscu_cmd cfg ds);
           EvRenamePass listing (FileSink.repair listing)]
          ++ (if (0 <? renamed)%nat then [EvLog (LogRenamed renamed)] else []) in
        if 0 <? completed then
          (true, image_count + completed,
           trace ++ [EvLog (LogRetrieved completed)])
        else
          (true, image_count, trace ++ [EvLog LogToolCompleted])
      else
        (false, image_count,
         [EvRunTool (getscu_cmd cfg ds); EvLog (LogToolFailed returncode)])
  end.

(** *** [_retrieve_with_move] *)

(** Line 495: the statuses that are logged as warning/error. *)
Definition move_warning (status : Z) : bool :=
  (status =? 0xA701) || (status =? 0xA702) || (status =? 0xA900)
  || (status =? 0xC000).

(** Lines 492-496, with the stores the listener handles meanwhile. *)
Fixpoint move_loop (cfg : config) (image_count : Z) (responses : list move_item)
    : Z * list event :=
  match responses with
  | [] => (image_count, [])
  | Incoming ds io :: rest =>
      let '(image_count, _, stored) := handle_store cfg image_count ds io in
      let '(image_count, trace) := move_loop cfg image_count rest in
      (image_count, stored ++ trace)
  | Response status :: rest =>
      let '(image_count, trace) := move_loop cfg image_count rest in
      match status with
      | Some s =>
          if move_warning s then (image_count, EvLog (LogMoveStatus s) :: trace)
          else (image_count, trace)
      | None => (image_count, trace)
      end
  end.

Definition _retrieve_with_move (cfg : config) (image_count : Z)
    (l : listener) (ds : RetrieveQuery) : bool * Z * list event :=
  match l with
  | ServerRaises =>
      (false, image_count, [EvStartServer (local_port cfg); EvLog LogServerFailed])
  | ServerNone =>
      (false, image_count, [EvStartServer (local_port cfg); EvLog LogServerNone])
  | ServerUp AssociateRaises =>
      (false, image_count,
       [EvStartServer (local_port cfg); EvAssociateRaised; EvLog LogMoveError;
        EvShutdown])
  | ServerUp Rejected =>
      (false, image_count,
       [EvStartServer (local_port cfg); EvAssociate false;
        EvLog LogMoveAssociateFailed; EvShutdown])
  | ServerUp (Established responses) =>
      let '(image_count, trace) := move_loop cfg image_count (items responses) in
      let opened :=
        [EvStartServer (local_port cfg); EvAssociate true; EvCMove ds] in
      match stream_end responses with
      | Exhausted => (true, image_count, opened ++ trace ++ [EvRelease; EvShutdown])
      | Raises =>
          (false, image_count, opened ++ trace ++ [EvLog LogMoveError; EvShutdown])
      end
  end.

(** *** [retrieve_study] *)

(** Lines 340-345: one series through the configured transport. *)
Definition retrieve_series (cfg : config) (w : world) (image_count : Z)
    (study_uid : string) (series : Dataset) : bool * Z * list event :=
  let series_uid := SeriesInstanceUID series in
  let ds := {| QueryRetrieveLevel := SERIES;
               query_StudyInstanceUID := study_uid;
               query_SeriesInstanceUID := Some series_uid |} in
  if use_c_get cfg then
    _retrieve_with_get cfg image_count (getscu w study_uid series_uid) ds
  else
    _retrieve_with_move cfg image_count (move_listener w study_uid series_uid) ds.

(** Lines 330-347: the loop over the series; [success] turns false at
    the first failed series and the loop goes on. *)
Fixpoint series_retrieval (cfg : config) (w : world) (image_count : Z)
    (study_uid : string) (nm_series : list Dataset) (success : bool)
    : bool * Z * list event :=
  match nm_series with
  | [] => (success, image_count, [])
  | series :: rest =>
      let '(ok, image_count, trace) :=
        retrieve_series cfg w image_count study_uid series in
      let success := if ok then success else false in
      let '(success, image_count, trace') :=
        series_retrieval cfg w image_count study_uid rest success in
      (success, image_count, trace ++ trace')
  end.

Definition retrieve_study (cfg : config) (w : world) (image_count : Z)
    (study_uid : string) : bool * Z * list event :=
  if dry_run cfg then
    (true, image_count, [EvLog (LogDryRunStudy study_uid)])
  else
    let '(nm_series, found) := find_nm_series (series_peer w study_uid) study_uid None in
    match nm_series with
    | [] => (false, image_count, found ++ [EvLog (LogNoSeries study_uid)])
    | _ :: _ =>
        let '(success, image_count, trace) :=
          series_retrieval cfg w image_count study_uid nm_series true in
        (success, image_count, found ++ trace)
    end.

(** *** [retrieve_images] *)

(** Line 531: [int(getattr(s, 'NumberOfStudyRelatedInstances', 0) or 0)]. *)
Definition declared_instances (s : Dataset) : Z :=
  match NumberOfStudyRelatedInstances s with
  | Some n => n
  | None => 0
  end.

Definition total_images (studies : list Dataset) : Z :=
  fold_right (fun s acc => declared_instances s + acc) 0 studies.

(** Line 551: [max_images and self.image_count >= max_images]. *)
Definition image_limit_reached (max_images : option Z) (image_count : Z) : bool :=
  match max_images with
  | Some m => negb (m =? 0) && (m <=? image_count)
  | None => false
  end.

(** Lines 545-553: the loop over the studies with its [break]. *)
Fixpoint study_loop (cfg : config) (w : world) (max_images : option Z)
    (image_count : Z) (studies : list Dataset) : Z * list event :=
  match studies with
  | [] => (image_count, [])
  | study :: rest =>
      let '(_, image_count, trace) :=
        retrieve_study cfg w image_count (StudyInstanceUID study) in
      if image_limit_reached max_images image_count then
        (image_count,
         trace ++ [EvLog (LogImageLimit max_images)])
      else
        let '(image_count, trace') :=
          study_loop cfg w max_images image_count rest in
        (image_count, trace ++ trace')
  end.

(** [retrieve_images]: from the counter at entry to the counter at exit
    and the trace. The closing count of the files in the output
    directory only reads and is left out. *)
Definition retrieve_images (cfg : config) (w : world)
    (max_studies max_images : option Z) (image_count : Z) : Z * list event :=
  let '(studies, found) :=
    find_nm_studies (now w) (study_peer w) max_studies (study_date cfg) in
  match studies with
  | [] => (image_count, found ++ [EvLog LogNoNMStudies])
  | _ :: _ =>
      let total := total_images studies in
      let estimate :=
        if 0 <? total then [EvLog (LogEstimatedTotal total)] else [] in
      let '(image_count, trace) :=
        study_loop cfg w max_images image_count studies in
      let summary :=
        if dry_run cfg then LogDryRunSummary image_count
        else LogRetrievalComplete image_count in
      (image_count, found ++ estimate ++ trace ++ [EvLog summary])
  end.

(** *** Date handling of [main] *)

(** Lines 698-709: the value [main] stores in [retriever.study_date]. *)
Definition main_study_date (study_date from_date to_date : option string)
    : option string :=
  if truthy from_date || truthy to_date then
    let from_date := or_else from_date "19700101" in
    let to_date := or_else to_date "29991231" in
    Some (from_date ++ "-" ++ to_date)%string
  else if truthy study_date then study_date
  else None.

(** The date range a run queries with: what [main] stores, as
    [find_nm_studies] completes it at the time of the call. *)
Definition resolve_date_range (now : Z)
    (study_date from_date to_date : option string) : string :=
  query_date now (main_study_date study_date from_date to_date).

(** *** Vocabulary of the statements *)

(** The segments [handle_store] joins below [output_dir] for a dataset:
    patient, study, series, file name. *)
Definition destination (ds : StoredDataset) : list string :=
  [sanitize (getattr (stored_PatientID ds) "UNKNOWN");
   getattr (stored_StudyInstanceUID ds) "UNKNOWN";
   getattr (stored_SeriesInstanceUID ds) "UNKNOWN";
   (getattr (stored_SOPInstanceUID ds) "UNKNOWN" ++ ".dcm")%string].

(** Only characters that [sanitize] keeps occur in the segment. *)
Definition segment_clean (segment : string) : bool :=
  forallb keep (list_ascii_of_string segment).

(** Number of objects the listener receives during one move. *)
Fixpoint incoming_count (responses : list move_item) : Z :=
  match responses with
  | [] => 0
  | Incoming _ _ :: rest => 1 + incoming_count rest
  | Response _ :: rest => incoming_count rest
  end.

(** The line bears the marker and an integer parses from its second
    field. *)
Definition count_line (line : string) : option Z :=
  if contains "Completed Suboperations" line then
    match nth_error (split ":" line) 1 with
    | Some field => py_int (strip field)
    | None => None
    end
  else None.

(** The counts the lines of the output yield, in the order of the
    lines. *)
Definition line_counts (stdout : string) : list Z :=
  flat_map (fun line => match count_line line with
                        | Some n => [n]
                        | None => []
                        end)
           (split newline stdout).

(** No line of the output yields a count. *)
Definition no_count_line (stdout : string) : bool :=
  forallb (fun line => match count_line line with
                       | Some _ => false
                       | None => true
                       end)
          (split newline stdout).

(** The call fails, or succeeds with an output no count parses from. *)
Definition uncounted (run : tool_run) : bool :=
  match run with
  | ToolExit returncode stdout _ _ =>
      negb (returncode =? 0) || no_count_line stdout
  | _ => true
  end.

Definition is_estimate (e : event) : bool :=
  match e with
  | EvLog (LogEstimatedTotal _) => true
  | _ => false
  end.

Definition is_image_limit (e : event) : bool :=
  match e with
  | EvLog (LogImageLimit _) => true
  | _ => false
  end.

Definition is_tool_run (e : event) : bool :=
  match e with
  | EvRunTool _ => true
  | _ => false
  end.

Definition is_server_start (e : event) : bool :=
  match e with
  | EvStartServer _ => true
  | _ => false
  end.

End Retriever.

(* ================================================================== *)
(** ** Sample data *)
(* ================================================================== *)

Module Samples.

Import Retriever.
Local Open Scope Z_scope.

(** A study as an archive reports it, declaring ten instances. *)
Definition study (uid modalities : string) : Dataset :=
  {| StudyInstanceUID := uid;
     SeriesInstanceUID := EmptyString;
     ModalitiesInStudy := Some (VStr modalities);
     NumberOfStudyRelatedInstances := Some 10 |}.

Definition series (study_uid uid : string) : Dataset :=
  {| StudyInstanceUID := study_uid;
     SeriesInstanceUID := uid;
     ModalitiesInStudy := None;
     NumberOfStudyRelatedInstances := None |}.

Definition matches (studies : list Dataset) : stream find_response :=
  {| items := map (fun d => (Some 0xFF00, Some d)) studies
              ++ [(Some 0x0000, None)];
     stream_end := Exhausted |}.

Definition A : Dataset := study "1.2.1" "NM".
Definition B : Dataset := study "1.2.2" "CT\NM".
Definition C : Dataset := study "1.2.3" "NM".
Definition D : Dataset := study "1.2.4" "NM\PT".
Definition E : Dataset := study "1.2.5" "NM".

Definition cfg (dry get : bool) : config :=
  {| pacs_host := "pacs.example.org"; pacs_port := 104; pacs_aet := "PACS";
     local_aet := "MY_LOCAL_AET"; local_port := 11112;
     output_dir := "/data/nm_images"; use_study_root := true;
     dry_run := dry; use_c_get := get; study_date := Some "20210901" |}.

(** 2021-09-30 *)
Definition today : Z := 738063.

End Samples.

(* ================================================================== *)
(** ** Observations on scripts and traces *)
(* ================================================================== *)

Module Observations.

Import PyStr Retriever.
Local Open Scope Z_scope.

(** The identifiers a C-FIND loop appends: those of the pending
    responses that carry one, in the order of arrival. *)
Definition pending_identifiers (responses : list find_response) : list Dataset :=
  flat_map (fun r => if pending (fst r)
                     then match snd r with
                          | Some d => [d]
                          | None => []
                          end
                     else [])
           responses.

(** The find gets an established association and reads the responses
    to the end. *)
Definition find_completes (p : peer find_response) : bool :=
  match p with
  | Established responses =>
      match stream_end responses with
      | Exhausted => true
      | Raises => false
      end
  | _ => false
  end.

(** [start_server] returned a server. *)
Definition listener_started (l : listener) : bool :=
  match l with
  | ServerUp _ => true
  | _ => false
  end.

(** The move of one series is read to its end. *)
Definition move_completes (l : listener) : bool :=
  match l with
  | ServerUp p =>
      match p with
      | Established responses =>
          match stream_end responses with
          | Exhausted => true
          | Raises => false
          end
      | _ => false
      end
  | _ => false
  end.

(** [getscu] was found and run to an exit code of 0. *)
Definition tool_succeeds (run : tool_run) : bool :=
  match run with
  | ToolExit returncode _ _ _ => returncode =? 0
  | _ => false
  end.

(** [getscu] was found, so [subprocess.run] was called. *)
Definition tool_launched (run : tool_run) : bool :=
  match run with
  | ToolMissing => false
  | _ => true
  end.

(** What the configured transport does with one series of a study. *)
Definition series_succeeds (cfg : config) (w : world) (study_uid : string)
    (series : Dataset) : bool :=
  if use_c_get cfg
  then tool_succeeds (getscu w study_uid (SeriesInstanceUID series))
  else move_completes (move_listener w study_uid (SeriesInstanceUID series)).

Definition is_shutdown (e : event) : bool :=
  match e with
  | EvShutdown => true
  | _ => false
  end.

Definition is_no_nm_studies (e : event) : bool :=
  match e with
  | EvLog LogNoNMStudies => true
  | _ => false
  end.

(** The events of the listener's side of a move: those of
    [handle_store] and the status warning of the move loop. *)
Definition of_the_move_loop (e : event) : bool :=
  match e with
  | EvMkdir _ | EvSave _ => true
  | EvLog (LogDryRunStore _ _) | EvLog (LogStored _ _) => true
  | EvLog (LogSaveFailed _) | EvLog (LogMoveStatus _) => true
  | _ => false
  end.

(** Paths of the directories below the root. *)
Fixpoint dir_paths (d : FileSink.dir) : list (list string) :=
  match d with
  | FileSink.Dir _ subdirs =>
      flat_map (fun e => [fst e] :: map (cons (fst e)) (dir_paths (snd e)))
               subdirs
  end.

(** The regular files with their paths and contents. *)
Fixpoint file_entries (d : FileSink.dir) : list (list string * string) :=
  match d with
  | FileSink.Dir files subdirs =>
      map (fun e => ([fst e], snd e)) files
      ++ flat_map (fun e => map (fun entry => (fst e :: fst entry, snd entry))
                                (file_entries (snd e)))
                  subdirs
  end.

Definition lacks_suffix (name : string) : bool := negb (endswith name ".dcm").

(** Number of files of the tree whose name lacks the suffix. *)
Fixpoint unsuffixed (d : FileSink.dir) : nat :=
  match d with
  | FileSink.Dir files subdirs =>
      (List.length (filter (fun e => lacks_suffix (fst e)) files)
       + list_sum (map (fun e => unsuffixed (snd e)) subdirs))%nat
  end.

Definition is_renamed_log (e : event) : bool :=
  match e with
  | EvLog (LogRenamed _) => true
  | _ => false
  end.

(** The transport an event belongs to: [Some true] for the external
    tool and its rename pass, [Some false] for the listener, the move
    and the stores, [None] for the rest. *)
Definition transport_side (e : event) : option bool :=
  match e with
  | EvRunTool _ | EvRenamePass _ _ => Some true
  | EvStartServer _ | EvShutdown | EvCMove _ | EvMkdir _ | EvSave _ => Some false
  | _ => None
  end.

(** What one study of a run may do under [cfg]: no study-level find;
    network and transport events outside dry run only, and of the
    configured transport only. *)
Definition of_a_study (cfg : config) (e : event) : bool :=
  match e with
  | EvCFind STUDY _ => false
  | EvCFind SERIES _ | EvAssociate _ | EvAssociateRaised | EvRelease =>
      negb (dry_run cfg)
  | EvRunTool _ | EvRenamePass _ _ => use_c_get cfg && negb (dry_run cfg)
  | EvStartServer _ | EvShutdown | EvCMove _ | EvMkdir _ | EvSave _ =>
      negb (use_c_get cfg) && negb (dry_run cfg)
  | EvLog _ => true
  end.

End Observations.

(* ================================================================== *)
(** ** [main] *)
(* ================================================================== *)

Module Main.

Import PyStr Retriever.
Local Open Scope Z_scope.

(** The namespace [parser.parse_args()] returns, defaults and
    environment applied. *)
Record arguments : Type := {
  host : option string;
  port : Z;
  aet : option string;
  arg_local_aet : string;
  arg_local_port : Z;
  output : string;
  max_studies : option Z;
  max_images : option Z;
  arg_study_date : option string;
  from_date : option string;
  to_date : option string;
  use_c_move : bool;
  patient_root : bool;
  arg_dry_run : bool
}.

(** How the process ends: an exit status ([parser.error] exits with 2,
    an exception that leaves [main] with 1, a clean run with 0). *)
Definition exit_status : Type := Z.

(** Lines 685-709: the retriever [main] builds, once [host] and [aet]
    are known to be there. *)
Definition retriever_config (args : arguments) : config :=
  {| pacs_host := or_else (host args) EmptyString;
     pacs_port := port args;
     pacs_aet := or_else (aet args) EmptyString;
     local_aet := arg_local_aet args;
     local_port := arg_local_port args;
     output_dir := output args;
     use_study_root := negb (patient_root args);
     dry_run := arg_dry_run args;
     use_c_get := negb (use_c_move args);
     study_date := main_study_date (arg_study_date args) (from_date args)
                                   (to_date args) |}.

(** [main], lines 672-722. [output_dir_fails] tells whether the
    [mkdir] of the output directory in [__init__] (lines 64-72)
    raises: the exception is logged and raised again, outside any
    [try] of [main]. The counter of a new retriever is 0. *)
Definition main (args : arguments) (output_dir_fails : bool) (w : world)
    : exit_status * list event :=
  if negb (truthy (host args)) then (2, [])
  else if negb (truthy (aet args)) then (2, [])
  else
    let cfg := retriever_config args in
    if output_dir_fails then (1, [EvMkdir [output_dir cfg]])
    else
      let '(_, trace) :=
        retrieve_images cfg w (max_studies args) (max_images args) 0 in
      (0, EvMkdir [output_dir cfg] :: trace).

End Main.

(* ================================================================== *)
(** * Properties *)
(* ================================================================== *)

Module StringFacts.

Import PyStr.
Local Open Scope string_scope.

Lemma eqb_append_nonempty (a b : string) :
  b <> EmptyString -> String.eqb (a ++ b) EmptyString = false.
Proof.
  intros Hb. destruct a as [|c a]; simpl.
  - destruct b; [congruence | reflexivity].
  - reflexivity.
Qed.

Lemma endswith_append (s suffix : string) : endswith (s ++ suffix) suffix = true.
Proof.
  induction s as [|c s IH]; simpl.
  - destruct suffix; simpl; rewrite ?Ascii.eqb_refl, ?String.eqb_refl; reflexivity.
  - rewrite IH. apply orb_true_r.
Qed.

Lemma length_app (a b : string) :
  String.length (a ++ b) = (String.length a + String.length b)%nat.
Proof. induction a as [|c a IH]; simpl; congruence. Qed.

Lemma append_inj_r (a b suffix : string) : a ++ suffix = b ++ suffix -> a = b.
Proof.
  revert b. induction a as [|c a IH]; intros [|d b] H; simpl in H.
  - reflexivity.
  - apply (f_equal String.length) in H. simpl in H.
    rewrite length_app in H. lia.
  - apply (f_equal String.length) in H. simpl in H.
    rewrite length_app in H. lia.
  - injection H as -> H. f_equal. now apply IH.
Qed.

Lemma contains_empty (needle : string) :
  needle <> EmptyString -> contains needle EmptyString = false.
Proof. destruct needle; [congruence | reflexivity]. Qed.

End StringFacts.

Module SanitizeFacts.

Import PyStr Retriever.

(** [sanitize] is the filter of line 162. *)
Lemma sanitize_filter (s : string) :
  list_ascii_of_string (sanitize s) = filter keep (list_ascii_of_string s).
Proof.
  induction s as [|c s IH]; simpl; [reflexivity|].
  destruct (keep c); simpl; now rewrite IH.
Qed.

Lemma sanitize_clean (s : string) : segment_clean (sanitize s) = true.
Proof.
  unfold segment_clean. rewrite sanitize_filter.
  apply forallb_forall. intros c Hc. now apply filter_In in Hc.
Qed.

(** C4, as the code has it: of the four path segments only the patient
    ID goes through the filter, which keeps exactly the characters that
    are alphanumeric, ['-'] or ['_'] (so ["AB/12*ID"] becomes
    ["AB12ID"]); the study, series and instance UIDs are joined as
    received. These are the segments the store writes to below
    [output_dir], and the ones a dry run logs. *)
Theorem patient_segment_sanitized (cfg : config) (image_count : Z)
    (ds : StoredDataset) (io : store_io) (s : string) :
  (dry_run cfg = true ->
   snd (handle_store cfg image_count ds io)
   = [EvLog (LogDryRunStore (image_count + 1) (destination ds))])
  /\ (dry_run cfg = false -> mkdir_raises io = false ->
      In (EvSave (output_dir cfg :: destination ds))
         (snd (handle_store cfg image_count ds io)))
  /\ nth 0 (destination ds) EmptyString
     = sanitize (getattr (stored_PatientID ds) "UNKNOWN")
  /\ nth 1 (destination ds) EmptyString
     = getattr (stored_StudyInstanceUID ds) "UNKNOWN"
  /\ nth 2 (destination ds) EmptyString
     = getattr (stored_SeriesInstanceUID ds) "UNKNOWN"
  /\ nth 3 (destination ds) EmptyString
     = (getattr (stored_SOPInstanceUID ds) "UNKNOWN" ++ ".dcm")%string
  /\ segment_clean (nth 0 (destination ds) EmptyString) = true
  /\ list_ascii_of_string (sanitize s) = filter keep (list_ascii_of_string s)
  /\ sanitize "AB/12*ID" = "AB12ID".
Proof.
  split; [|split].
  - intros Hdry. unfold handle_store. now rewrite Hdry.
  - intros Hdry Hmk. unfold handle_store. rewrite Hdry, Hmk.
    destruct (save_raises io); simpl; auto.
  - repeat split; try reflexivity.
    + apply sanitize_clean.
    + apply sanitize_filter.
Qed.

(** C4, as stated, fails: the store of an object of patient
    ["AB/12*ID"] writes below a study segment that still has its dots. *)
Lemma study_segment_kept_verbatim :
  let ds := {| stored_PatientID := Some "AB/12*ID";
               stored_StudyInstanceUID := Some "1.2.840.113619";
               stored_SeriesInstanceUID := Some "1.2.840.113619.2";
               stored_SOPInstanceUID := Some "1.2.840.113619.2.1" |} in
  In (EvSave ["/data/nm_images"; "AB12ID"; "1.2.840.113619";
              "1.2.840.113619.2"; "1.2.840.113619.2.1.dcm"])
     (snd (handle_store (Samples.cfg false false) 0 ds
             {| mkdir_raises := false; save_raises := false |}))
  /\ segment_clean "1.2.840.113619" = false.
Proof. split; [simpl; auto | reflexivity]. Qed.

End SanitizeFacts.

Module FindFacts.

Import PyStr Retriever.
Local Open Scope Z_scope.

(** Without a limit the loop of lines 246-260 is a plain filter. *)
Lemma filter_nm_unlimited (all_studies nm_studies : list Dataset) :
  filter_nm None all_studies nm_studies = nm_studies ++ filter has_nm all_studies.
Proof.
  revert nm_studies.
  induction all_studies as [|study rest IH]; intros nm_studies; simpl.
  - now rewrite app_nil_r.
  - destruct (has_nm study); simpl.
    + rewrite IH, <- app_assoc. reflexivity.
    + apply IH.
Qed.

(** A value that is not truthy prints as the empty text. *)
Lemma falsy_value_str (v : value) : value_truthy v = false -> value_str v = EmptyString.
Proof.
  destruct v as [s|[|x vs]]; simpl; intros H; try reflexivity; try discriminate.
  apply negb_false_iff in H. now apply String.eqb_eq in H.
Qed.

Lemma has_nm_spec (study : Dataset) :
  has_nm study = true
  <-> exists modalities,
        ModalitiesInStudy study = Some modalities
        /\ contains "NM" (value_str modalities) = true.
Proof.
  unfold has_nm. split.
  - destruct (ModalitiesInStudy study) as [m|]; [|discriminate].
    intros H. apply andb_true_iff in H. exists m. now split.
  - intros (m & -> & Hm). rewrite Hm, andb_true_r.
    destruct (value_truthy m) eqn:Ht; [reflexivity|].
    rewrite (falsy_value_str _ Ht) in Hm. discriminate.
Qed.

(** C5: the filter keeps a study exactly when its modalities attribute
    is there and its text contains ['NM']; a study without the
    attribute is dropped. So [CT\NM] stays (read as one text or as the
    two values pydicom makes of it), [CT\MR] and an absent attribute go. *)
Theorem modality_filter_retains_nm (all_studies : list Dataset) (study : Dataset) :
  (In study (filter_nm None all_studies [])
   <-> In study all_studies
       /\ exists modalities,
            ModalitiesInStudy study = Some modalities
            /\ contains "NM" (value_str modalities) = true)
  /\ (ModalitiesInStudy study = None -> has_nm study = false)
  /\ (forall uid series n,
        has_nm (Build_Dataset uid series (Some (VStr "CT\NM")) n) = true
        /\ has_nm (Build_Dataset uid series (Some (VMulti ["CT"; "NM"])) n) = true
        /\ has_nm (Build_Dataset uid series (Some (VStr "CT\MR")) n) = false
        /\ has_nm (Build_Dataset uid series (Some (VMulti ["CT"; "MR"])) n) = false
        /\ has_nm (Build_Dataset uid series None n) = false).
Proof.
  split; [|split].
  - rewrite filter_nm_unlimited. simpl. rewrite filter_In, has_nm_spec. tauto.
  - intros H. unfold has_nm. now rewrite H.
  - intros uid series n. repeat split; reflexivity.
Qed.

(** With a positive limit the loop stops as soon as [limit] studies are
    kept: it computes the first [limit] elements of the filter. *)
Lemma filter_nm_limited (limit : Z) (all_studies nm_studies : list Dataset) :
  0 < limit ->
  (List.length nm_studies < Z.to_nat limit)%nat ->
  filter_nm (Some limit) all_studies nm_studies
  = firstn (Z.to_nat limit) (nm_studies ++ filter has_nm all_studies).
Proof.
  intros Hpos. revert nm_studies.
  induction all_studies as [|study rest IH]; intros nm_studies Hlen; simpl.
  - rewrite app_nil_r. symmetry. apply firstn_all2. lia.
  - destruct (has_nm study).
    + unfold limit_reached.
      replace (limit =? 0) with false by (symmetry; apply Z.eqb_neq; lia).
      simpl negb. cbv iota. rewrite andb_true_l.
      replace (nm_studies ++ study :: filter has_nm rest)
        with ((nm_studies ++ [study]) ++ filter has_nm rest)
        by (rewrite <- app_assoc; reflexivity).
      destruct (limit <=? Z.of_nat (List.length (nm_studies ++ [study]))) eqn:Hhit.
      * apply Z.leb_le in Hhit. rewrite length_app in Hhit. simpl in Hhit.
        rewrite firstn_app, length_app. simpl List.length.
        replace (Z.to_nat limit - (List.length nm_studies + 1))%nat with O by lia.
        rewrite firstn_O, app_nil_r. symmetry. apply firstn_all2.
        rewrite length_app. simpl. lia.
      * apply Z.leb_gt in Hhit. rewrite length_app in Hhit. simpl in Hhit.
        apply IH. rewrite length_app. simpl. lia.
    + now apply IH.
Qed.

(** C6: when the find completes, a positive [limit] yields exactly the
    first [limit] studies that pass the modality filter, in the order
    the responses came in. *)
Theorem study_limit_takes_first (now : Z) (responses : stream find_response)
    (limit : Z) (study_date : option string) :
  0 < limit ->
  stream_end responses = Exhausted ->
  fst (find_nm_studies now (Established responses) (Some limit) study_date)
  = firstn (Z.to_nat limit) (filter has_nm (collect (items responses) [])).
Proof.
  intros Hpos Hend. unfold find_nm_studies. rewrite Hend.
  destruct (collect (items responses) []) as [|d all] eqn:Hall.
  - simpl. now rewrite firstn_nil.
  - cbn [fst]. unfold up_to_limit.
    replace (limit =? 0) with false by (symmetry; apply Z.eqb_neq; lia).
    unfold slice_to.
    replace (0 <=? limit) with true by (symmetry; apply Z.leb_le; lia).
    rewrite filter_nm_limited by (simpl; lia).
    simpl app. rewrite firstn_firstn. f_equal. lia.
Qed.

(** The five studies [A..E] all match; with [limit = 2] the find
    returns [A; B]. *)
Lemma study_limit_two_of_five :
  fst (find_nm_studies Samples.today
         (Established (Samples.matches
            [Samples.A; Samples.B; Samples.C; Samples.D; Samples.E]))
         (Some 2) None)
  = [Samples.A; Samples.B].
Proof.
  rewrite study_limit_takes_first by first [lia | reflexivity].
  reflexivity.
Defined.

Lemma range_text_truthy (from_date to_date : string) :
  String.eqb (from_date ++ "-" ++ to_date)%string EmptyString = false.
Proof. apply StringFacts.eqb_append_nonempty. discriminate. Qed.

(** C7: the date range a run queries with. A from- or to-bound gives
    the range with [19700101] / [29991231] on the missing side;
    otherwise a single date is used as it is; otherwise the range is
    the 30 days that end on the day of the call. *)
Theorem date_range_resolution (now : Z) (single from_date to_date : option string) :
  (truthy from_date || truthy to_date = true ->
   resolve_date_range now single from_date to_date
   = (or_else from_date "19700101" ++ "-" ++ or_else to_date "29991231")%string)
  /\ (truthy from_date || truthy to_date = false ->
      forall d, single = Some d -> d <> EmptyString ->
      resolve_date_range now single from_date to_date = d)
  /\ (truthy from_date || truthy to_date = false ->
      truthy single = false ->
      resolve_date_range now single from_date to_date
      = (Calendar.strftime_Ymd (now - 30) ++ "-" ++ Calendar.strftime_Ymd now)%string)
  /\ resolve_date_range now None (Some "20210101") None = "20210101-29991231"
  /\ resolve_date_range now None None (Some "20211231") = "19700101-20211231".
Proof.
  unfold resolve_date_range, main_study_date.
  split; [|split; [|split; [|split]]]; try reflexivity.
  - intros ->. unfold query_date. now rewrite range_text_truthy.
  - intros -> d -> Hd. unfold truthy, query_date.
    destruct (String.eqb d EmptyString) eqn:E.
    + apply String.eqb_eq in E. contradiction.
    + simpl. now rewrite E.
  - intros -> ->. unfold query_date, Calendar.last_30_days. reflexivity.
Qed.

(** On 2021-09-30: a lone from-bound, a lone to-bound, a single date,
    and no date at all. *)
Lemma date_range_examples :
  resolve_date_range Samples.today (Some "20210901") (Some "20210101") None
  = "20210101-29991231"
  /\ resolve_date_range Samples.today None None None = "20210831-20210930".
Proof.
  destruct (date_range_resolution Samples.today (Some "20210901")
              (Some "20210101") None) as (Hrange & _).
  destruct (date_range_resolution Samples.today None None None)
    as (_ & _ & Hdefault & _).
  split.
  - rewrite Hrange by reflexivity. reflexivity.
  - rewrite Hdefault by reflexivity. reflexivity.
Defined.

End FindFacts.

Module FileSinkFacts.

Import PyStr FileSink.

(** Induction on a directory tree, with the hypothesis for every
    sub-directory. *)
Lemma dir_induction (P : dir -> Prop) :
  (forall files subdirs,
      Forall (fun e => P (snd e)) subdirs -> P (Dir files subdirs)) ->
  forall d, P d.
Proof.
  intros step. fix IH 1. intros [files subdirs]. apply step.
  induction subdirs as [|[name sub] rest IHrest]; constructor.
  - apply IH.
  - exact IHrest.
Qed.

Lemma has_name_In {A : Type} (name : string) (entries : list (string * A)) :
  has_name name entries = true <-> In name (map fst entries).
Proof.
  unfold has_name. rewrite existsb_exists, in_map_iff. split.
  - intros (e & He & Heq). exists e. apply String.eqb_eq in Heq. now split.
  - intros (e & Heq & He). exists e. split; [exact He|]. now apply String.eqb_eq.
Qed.

Lemma has_name_map {A B : Type} (g : A -> B) (name : string)
    (entries : list (string * A)) :
  has_name name (map (fun e => (fst e, g (snd e))) entries) = has_name name entries.
Proof.
  unfold has_name. induction entries as [|e rest IH]; simpl; [reflexivity|].
  now rewrite IH.
Qed.

Lemma suffix_differs (f : string) :
  endswith f ".dcm" = false -> f <> (f ++ ".dcm")%string.
Proof.
  intros Hf Heq. rewrite Heq in Hf.
  now rewrite StringFacts.endswith_append in Hf.
Qed.

Section OneDirectory.

Context {A : Type}.
Variable subdirs : list (string * A).

Lemma rename_Some (old new : string) (files files' : list (string * string)) :
  rename subdirs old new files = Some files' ->
  old <> new ->
  has_name new subdirs = false
  /\ has_name old files = true
  /\ files' = map (fun e => if String.eqb (fst e) old then (new, snd e) else e)
                  (filter (fun e => negb (String.eqb (fst e) new)) files).
Proof.
  unfold rename. intros H Hne.
  destruct (has_name new subdirs); [discriminate|].
  destruct (has_name old files); [|discriminate]. simpl in H.
  destruct (String.eqb old new) eqn:E.
  - apply String.eqb_eq in E. contradiction.
  - injection H as <-. auto.
Qed.

Lemma rename_None (old new : string) (files : list (string * string)) :
  rename subdirs old new files = None ->
  has_name new subdirs = true \/ has_name old files = false.
Proof.
  unfold rename.
  destruct (has_name new subdirs); [now left|].
  destruct (has_name old files); [|now right]. simpl.
  destruct (String.eqb old new); discriminate.
Qed.

(** A step on a stuck name changes nothing. *)
Lemma rename_step_stuck (acc : list (string * string) * nat) (f : string) :
  stuck subdirs f -> rename_step subdirs acc f = acc.
Proof.
  unfold rename_step, rename. intros [Hf | Hf]; rewrite Hf; [reflexivity|].
  now destruct (endswith f ".dcm").
Qed.

Lemma pass_over_stuck (names : list string) (acc : list (string * string) * nat) :
  (forall f, In f names -> stuck subdirs f) ->
  fold_left (rename_step subdirs) names acc = acc.
Proof.
  induction names as [|f rest IH]; intros H; simpl; [reflexivity|].
  rewrite rename_step_stuck by (apply H; now left).
  apply IH. intros g Hg. apply H. now right.
Qed.

(** After a step on [f], a file is stuck or still to come. *)
Lemma rename_step_settles (files : list (string * string)) (n : nat)
    (f : string) (rest : list string) :
  (forall e, In e files -> stuck subdirs (fst e) \/ In (fst e) (f :: rest)) ->
  forall e, In e (fst (rename_step subdirs (files, n) f)) ->
            stuck subdirs (fst e) \/ In (fst e) rest.
Proof.
  intros H. unfold rename_step. cbn [fst snd].
  destruct (endswith f ".dcm") eqn:Hf.
  - intros e He. destruct (H e He) as [Hs | [<- | Hr]]; auto.
    left; left; exact Hf.
  - destruct (rename subdirs f (f ++ ".dcm") files) as [files'|] eqn:R.
    + apply rename_Some in R; [|now apply suffix_differs].
      destruct R as (_ & _ & ->). cbn [fst]. intros e He.
      apply in_map_iff in He as (e0 & <- & He0).
      apply filter_In in He0 as (He0 & _).
      destruct (String.eqb (fst e0) f) eqn:E; cbn [fst].
      * left; left. apply StringFacts.endswith_append.
      * destruct (H e0 He0) as [Hs | [Heq | Hr]]; auto.
        apply String.eqb_neq in E. symmetry in Heq. contradiction.
    + cbn [fst]. intros e He.
      destruct (H e He) as [Hs | [Heq | Hr]]; auto.
      apply rename_None in R as [R | R].
      * left; right. now rewrite <- Heq.
      * exfalso. assert (Hin : has_name f files = true).
        { apply has_name_In. rewrite Heq. now apply in_map. }
        congruence.
Qed.

Lemma pass_settles (names : list string) (files : list (string * string)) (n : nat) :
  (forall e, In e files -> stuck subdirs (fst e) \/ In (fst e) names) ->
  forall e, In e (fst (fold_left (rename_step subdirs) names (files, n))) ->
            stuck subdirs (fst e).
Proof.
  revert files n. induction names as [|f rest IH]; intros files n H; simpl.
  - intros e He. destruct (H e He) as [Hs | []]. exact Hs.
  - destruct (rename_step subdirs (files, n) f) as [files' n'] eqn:S.
    apply IH. intros e He. apply (rename_step_settles files n f rest H).
    now rewrite S.
Qed.

(** Every file the pass leaves behind is stuck. *)
Lemma rename_pass_settles (files : list (string * string)) :
  forall e, In e (fst (rename_pass subdirs files)) -> stuck subdirs (fst e).
Proof.
  apply pass_settles. intros e He. right. now apply in_map.
Qed.

(** One directory: a second pass renames nothing. *)
Lemma rename_pass_idempotent (files : list (string * string)) :
  rename_pass subdirs (fst (rename_pass subdirs files))
  = (fst (rename_pass subdirs files), O).
Proof.
  unfold rename_pass at 1. apply pass_over_stuck.
  intros f Hf. apply in_map_iff in Hf as (e & <- & He).
  now apply rename_pass_settles in He.
Qed.

End OneDirectory.

(** The pass looks at the sub-directories' names only. *)
Lemma rename_pass_names {A B : Type} (s1 : list (string * A))
    (s2 : list (string * B)) (files : list (string * string)) :
  (forall name, has_name name s1 = has_name name s2) ->
  rename_pass s1 files = rename_pass s2 files.
Proof.
  intros H. unfold rename_pass. generalize (files, O) as acc.
  induction (map fst files) as [|f rest IH]; intros acc; simpl; [reflexivity|].
  rewrite <- IH. f_equal. unfold rename_step, rename. now rewrite H.
Qed.

Lemma repair_idempotent (d : dir) : repair (repair d) = repair d.
Proof.
  induction d as [files subdirs IH] using dir_induction. simpl.
  rewrite (rename_pass_names _ subdirs) by (intros name; apply (has_name_map repair)).
  rewrite rename_pass_idempotent. cbn [fst]. f_equal.
  rewrite map_map. cbn [fst snd].
  induction IH as [|e rest He _ IHrest]; simpl; [reflexivity|].
  now rewrite He, IHrest.
Qed.

(** Two readings of one test disagree. *)
Ltac absurd_bool :=
  match goal with
  | H1 : ?b = true, H2 : ?b = false |- _ => rewrite H1 in H2; discriminate H2
  end.

Lemma with_suffix_ends (name : string) : endswith (with_suffix name) ".dcm" = true.
Proof.
  unfold with_suffix. destruct (endswith name ".dcm") eqn:E; [exact E|].
  apply StringFacts.endswith_append.
Qed.

Section NoFailingRename.

Context {A : Type}.
Variable subdirs : list (string * A).

Lemma rename_names (old new : string) (files files' : list (string * string)) :
  rename subdirs old new files = Some files' ->
  old <> new ->
  forall m, In m (map fst files')
            <-> m = new \/ (In m (map fst files) /\ m <> old /\ m <> new).
Proof.
  intros R Hne. apply rename_Some in R; [|exact Hne].
  destruct R as (_ & Hold & ->). intros m. split.
  - intros Hm. apply in_map_iff in Hm as (e & <- & He).
    apply in_map_iff in He as (e0 & <- & He0).
    apply filter_In in He0 as (He0 & Hkeep).
    apply negb_true_iff, String.eqb_neq in Hkeep.
    destruct (String.eqb (fst e0) old) eqn:E; cbn [fst]; [now left|].
    apply String.eqb_neq in E. right. repeat split; auto. now apply in_map.
  - intros [-> | (Hm & Ho & Hn)].
    + apply has_name_In, in_map_iff in Hold as (e0 & Heq & He0).
      apply in_map_iff. exists (new, snd e0). split; [reflexivity|].
      apply in_map_iff. exists e0. split.
      * rewrite Heq, String.eqb_refl. reflexivity.
      * apply filter_In. split; [exact He0|].
        apply negb_true_iff, String.eqb_neq. now rewrite Heq.
    + apply in_map_iff in Hm as (e0 & Heq & He0).
      apply in_map_iff. exists e0. split; [exact Heq|].
      apply in_map_iff. exists e0. split.
      * apply String.eqb_neq in Ho. rewrite <- Heq in Ho. now rewrite Ho.
      * apply filter_In. split; [exact He0|].
        apply negb_true_iff, String.eqb_neq. now rewrite Heq.
Qed.

Lemma rename_step_advances (files : list (string * string)) (n : nat)
    (f : string) (rest : list string) (m : string) :
  free subdirs f ->
  on_its_way m files (f :: rest) ->
  on_its_way m (fst (rename_step subdirs (files, n) f)) rest.
Proof.
  intros Hfree Hm. unfold rename_step. cbn [fst snd].
  destruct (endswith f ".dcm") eqn:Hf.
  - destruct Hm as [Hm | (Hend & Hin & [<- | Hr])]; [now left | absurd_bool |].
    right. auto.
  - destruct Hfree as [Hfree | Hfree]; [absurd_bool|].
    destruct (rename subdirs f (f ++ ".dcm") files) as [files'|] eqn:R.
    + pose proof (rename_names _ _ _ _ R (suffix_differs f Hf)) as Hnames.
      cbn [fst].
      destruct Hm as [Hm | (Hend & Hin & Hr)].
      * left. apply Hnames.
        destruct (String.eqb (with_suffix m) (f ++ ".dcm")) eqn:E.
        -- left. now apply String.eqb_eq.
        -- right. apply String.eqb_neq in E. repeat split; auto.
           intros Heq. pose proof (with_suffix_ends m) as He.
           rewrite Heq in He. absurd_bool.
      * destruct (String.eqb m f) eqn:E.
        -- apply String.eqb_eq in E. subst m. left. apply Hnames. left.
           unfold with_suffix. now rewrite Hf.
        -- apply String.eqb_neq in E.
           destruct Hr as [Hr | Hr]; [now symmetry in Hr|].
           right. repeat split; auto. apply Hnames. right. repeat split; auto.
           intros ->. rewrite StringFacts.endswith_append in Hend. discriminate.
    + cbn [fst]. apply rename_None in R as [R | R]; [absurd_bool|].
      destruct Hm as [Hm | (Hend & Hin & [<- | Hr])]; [now left | |].
      * apply has_name_In in Hin. absurd_bool.
      * right. auto.
Qed.

Lemma pass_advances (names : list string) (files : list (string * string))
    (n : nat) (m : string) :
  (forall f, In f names -> free subdirs f) ->
  on_its_way m files names ->
  In (with_suffix m)
     (map fst (fst (fold_left (rename_step subdirs) names (files, n)))).
Proof.
  revert files n. induction names as [|f rest IH]; intros files n Hfree Hm; simpl.
  - destruct Hm as [Hm | (_ & _ & [])]. exact Hm.
  - destruct (rename_step subdirs (files, n) f) as [files' n'] eqn:S.
    apply IH; [intros g Hg; apply Hfree; now right|].
    replace files' with (fst (rename_step subdirs (files, n) f)) by now rewrite S.
    apply rename_step_advances; [apply Hfree; now left | exact Hm].
Qed.

(** What the pass leaves without the suffix was there before. *)
Lemma pass_keeps_origin (original : list (string * string)) (names : list string)
    (files : list (string * string)) (n : nat) :
  (forall e, In e files -> endswith (fst e) ".dcm" = true \/ In e original) ->
  forall e, In e (fst (fold_left (rename_step subdirs) names (files, n))) ->
            endswith (fst e) ".dcm" = true \/ In e original.
Proof.
  revert files n. induction names as [|f rest IH]; intros files n H; simpl.
  - exact H.
  - destruct (rename_step subdirs (files, n) f) as [files' n'] eqn:S.
    apply IH. revert S. unfold rename_step. cbn [fst snd].
    destruct (endswith f ".dcm") eqn:Hf; [now intros [= <- _]|].
    destruct (rename subdirs f (f ++ ".dcm") files) as [renamed|] eqn:R;
      [|now intros [= <- _]].
    intros [= <- _]. apply rename_Some in R; [|now apply suffix_differs].
    destruct R as (_ & _ & ->). intros e He.
    apply in_map_iff in He as (e0 & <- & He0).
    apply filter_In in He0 as (He0 & _).
    destruct (String.eqb (fst e0) f); cbn [fst].
    + left. apply StringFacts.endswith_append.
    + now apply H.
Qed.

Variable files : list (string * string).
Hypothesis all_free : forall e, In e files -> free subdirs (fst e).

Lemma rename_pass_all_suffixed :
  forall e, In e (fst (rename_pass subdirs files)) ->
            endswith (fst e) ".dcm" = true.
Proof.
  intros e He.
  destruct (pass_keeps_origin files (map fst files) files O
              (fun e H => or_intror H) e He) as [Hd | Ho]; [exact Hd|].
  destruct (rename_pass_settles subdirs files e He) as [Hd | Hclash]; [exact Hd|].
  destruct (all_free e Ho) as [Hd | Hfree]; [exact Hd | absurd_bool].
Qed.

Lemma rename_pass_suffixes (m : string) :
  In m (map fst files) ->
  In (with_suffix m) (map fst (fst (rename_pass subdirs files))).
Proof.
  intros Hm. apply pass_advances.
  - intros f Hf. apply in_map_iff in Hf as (e & <- & He). now apply all_free.
  - unfold on_its_way, with_suffix.
    destruct (endswith m ".dcm"); [now left | right; auto].
Qed.

End NoFailingRename.

Section FinalNames.

Context {A : Type}.
Variable subdirs : list (string * A).

(** A name that is renamed is nobody's final name. *)
Lemma final_name_not_renamed (f n : string) :
  endswith f ".dcm" = false ->
  has_name (f ++ ".dcm") subdirs = false ->
  final_name subdirs n <> f.
Proof.
  intros Hf Hfree. unfold final_name.
  destruct (endswith n ".dcm") eqn:En.
  - intros ->. absurd_bool.
  - destruct (has_name (n ++ ".dcm") subdirs) eqn:Cn.
    + intros ->. absurd_bool.
    + intros <-. rewrite StringFacts.endswith_append in Hf. discriminate.
Qed.

Lemma final_name_renamed (f : string) :
  endswith f ".dcm" = false ->
  has_name (f ++ ".dcm") subdirs = false ->
  final_name subdirs f = (f ++ ".dcm")%string.
Proof. intros Hf Hfree. unfold final_name. now rewrite Hf, Hfree. Qed.

Lemma final_name_kept (f : string) :
  endswith f ".dcm" = true \/ has_name (f ++ ".dcm") subdirs = true ->
  final_name subdirs f = f.
Proof.
  unfold final_name. intros [H | H]; rewrite H; [reflexivity|].
  now destruct (endswith f ".dcm").
Qed.

Lemma rename_step_settling (files : list (string * string)) (n : nat)
    (f : string) (rest : list string) (m : string) :
  settling subdirs m files (f :: rest) ->
  settling subdirs m (fst (rename_step subdirs (files, n) f)) rest.
Proof.
  intros Hm. unfold rename_step. cbn [fst snd].
  destruct (endswith f ".dcm") eqn:Hf.
  - destruct Hm as [Hm | (Hend & Hfree & Hin & [<- | Hr])];
      [now left | absurd_bool | right; auto].
  - destruct (rename subdirs f (f ++ ".dcm") files) as [files'|] eqn:R.
    + pose proof (rename_names _ _ _ _ _ R (suffix_differs f Hf)) as Hnames.
      apply rename_Some in R as (Hfree & _ & _); [|now apply suffix_differs].
      cbn [fst]. destruct Hm as [Hm | (Hend & Hmfree & Hin & Hr)].
      * left. apply Hnames.
        destruct (String.eqb (final_name subdirs m) (f ++ ".dcm")) eqn:E.
        -- left. now apply String.eqb_eq.
        -- right. apply String.eqb_neq in E. repeat split; auto.
           now apply final_name_not_renamed.
      * destruct (String.eqb m f) eqn:E.
        -- apply String.eqb_eq in E. subst m. left. apply Hnames. left.
           now apply final_name_renamed.
        -- apply String.eqb_neq in E.
           destruct Hr as [Hr | Hr]; [now symmetry in Hr|].
           right. repeat split; auto. apply Hnames. right. repeat split; auto.
           intros ->. rewrite StringFacts.endswith_append in Hend. discriminate.
    + cbn [fst]. destruct Hm as [Hm | (Hend & Hmfree & Hin & [<- | Hr])];
        [now left | | right; auto].
      apply rename_None in R as [R | R]; [absurd_bool|].
      apply has_name_In in Hin. absurd_bool.
Qed.

Lemma pass_settling (names : list string) (files : list (string * string))
    (n : nat) (m : string) :
  settling subdirs m files names ->
  In (final_name subdirs m)
     (map fst (fst (fold_left (rename_step subdirs) names (files, n)))).
Proof.
  revert files n. induction names as [|f rest IH]; intros files n Hm; simpl.
  - destruct Hm as [Hm | (_ & _ & _ & [])]. exact Hm.
  - destruct (rename_step subdirs (files, n) f) as [files' n'] eqn:S.
    apply IH.
    replace files' with (fst (rename_step subdirs (files, n) f)) by now rewrite S.
    now apply rename_step_settling.
Qed.

Lemma rename_step_accounted (original : list string)
    (files : list (string * string)) (n : nat) (f : string) (rest : list string) :
  In f original ->
  (forall m, In m (map fst files) -> accounted subdirs original m (f :: rest)) ->
  forall m, In m (map fst (fst (rename_step subdirs (files, n) f))) ->
            accounted subdirs original m rest.
Proof.
  intros Hf0 H. unfold rename_step. cbn [fst snd].
  destruct (endswith f ".dcm") eqn:Hf.
  - intros m Hm. destruct (H m Hm) as [Hl | (Hend & Hfree & Ho & [<- | Hr])];
      [now left | absurd_bool | right; auto].
  - destruct (rename subdirs f (f ++ ".dcm") files) as [files'|] eqn:R.
    + pose proof (rename_names _ _ _ _ _ R (suffix_differs f Hf)) as Hnames.
      apply rename_Some in R as (Hfree & _ & _); [|now apply suffix_differs].
      cbn [fst]. intros m Hm. apply Hnames in Hm as [-> | (Hm & Hne & _)].
      * left. exists f. split; [exact Hf0|]. symmetry.
        now apply final_name_renamed.
      * destruct (H m Hm) as [Hl | (Hend & Hmfree & Ho & [Heq | Hr])];
          [now left | now symmetry in Heq | right; auto].
    + cbn [fst]. intros m Hm.
      destruct (H m Hm) as [Hl | (Hend & Hmfree & Ho & [<- | Hr])];
        [now left | | right; auto].
      apply rename_None in R as [R | R]; [absurd_bool|].
      apply has_name_In in Hm. absurd_bool.
Qed.

Lemma pass_accounted (original names : list string)
    (files : list (string * string)) (n : nat) :
  incl names original ->
  (forall m, In m (map fst files) -> accounted subdirs original m names) ->
  forall m,
    In m (map fst (fst (fold_left (rename_step subdirs) names (files, n)))) ->
    exists o, In o original /\ m = final_name subdirs o.
Proof.
  revert files n. induction names as [|f rest IH]; intros files n Hincl H; simpl.
  - intros m Hm. destruct (H m Hm) as [Hl | (_ & _ & _ & [])]. exact Hl.
  - destruct (rename_step subdirs (files, n) f) as [files' n'] eqn:S.
    apply IH; [intros x Hx; apply Hincl; now right|].
    replace files' with (fst (rename_step subdirs (files, n) f)) by now rewrite S.
    apply rename_step_accounted; [apply Hincl; now left | exact H].
Qed.

(** One directory: the names after the pass are the final names of the
    files that were there. *)
Lemma rename_pass_final_names (files : list (string * string)) (m : string) :
  In m (map fst (fst (rename_pass subdirs files)))
  <-> exists n, In n (map fst files) /\ m = final_name subdirs n.
Proof.
  unfold rename_pass. split.
  - apply pass_accounted; [apply incl_refl|].
    intros x Hx. unfold accounted.
    destruct (endswith x ".dcm") eqn:Ex.
    + left. exists x. split; [exact Hx|]. symmetry. apply final_name_kept. now left.
    + destruct (has_name (x ++ ".dcm") subdirs) eqn:Cx.
      * left. exists x. split; [exact Hx|]. symmetry. apply final_name_kept.
        now right.
      * right. auto.
  - intros (o & Ho & ->). apply pass_settling. unfold settling.
    destruct (endswith o ".dcm") eqn:Eo.
    + left. rewrite final_name_kept by now left. exact Ho.
    + destruct (has_name (o ++ ".dcm") subdirs) eqn:Co.
      * left. rewrite final_name_kept by now right. exact Ho.
      * right. auto.
Qed.

End FinalNames.

(** The files after the walk are the files from before, each under
    its final name. *)
Lemma repair_final_paths (d : dir) (path : list string) :
  In path (file_paths (repair d)) <-> In path (final_paths d).
Proof.
  revert path. induction d as [files subdirs IH] using dir_induction.
  intros path. simpl. rewrite !in_app_iff. rewrite Forall_forall in IH.
  assert (Hfiles : In path (map (fun e => [fst e])
                              (fst (rename_pass subdirs files)))
                   <-> In path (map (fun e => [final_name subdirs (fst e)]) files)).
  { rewrite !in_map_iff. split.
    - intros (e & <- & He).
      assert (Hm : In (fst e) (map fst (fst (rename_pass subdirs files))))
        by now apply in_map.
      apply rename_pass_final_names in Hm as (o & Ho & Heq).
      apply in_map_iff in Ho as (e0 & <- & He0).
      exists e0. now rewrite Heq.
    - intros (e0 & <- & He0).
      assert (Hm : In (final_name subdirs (fst e0))
                      (map fst (fst (rename_pass subdirs files)))).
      { apply rename_pass_final_names. exists (fst e0). split; [|reflexivity].
        now apply in_map. }
      apply in_map_iff in Hm as (e & Heq & He). exists e. now rewrite Heq. }
  assert (Hsubs : In path
                    (flat_map (fun e => map (cons (fst e)) (file_paths (snd e)))
                       (map (fun e => (fst e, repair (snd e))) subdirs))
                  <-> In path
                        (flat_map (fun e => map (cons (fst e)) (final_paths (snd e)))
                           subdirs)).
  { rewrite !in_flat_map. split.
    - intros (e & He & Hp). apply in_map_iff in He as (e0 & <- & He0).
      cbn [fst snd] in Hp. apply in_map_iff in Hp as (q & <- & Hq).
      exists e0. split; [exact He0|]. apply in_map_iff. exists q.
      split; [reflexivity|]. now apply (IH e0 He0).
    - intros (e0 & He0 & Hp). apply in_map_iff in Hp as (q & <- & Hq).
      exists (fst e0, repair (snd e0)). split; [apply in_map_iff; now exists e0|].
      cbn [fst snd]. apply in_map_iff. exists q. split; [reflexivity|].
      now apply (IH e0 He0). }
  tauto.
Qed.

Lemma no_clash_free (files : list (string * string)) (subdirs : list (string * dir)) :
  no_clash (Dir files subdirs) = true ->
  (forall e, In e files -> free subdirs (fst e))
  /\ (forall e, In e subdirs -> no_clash (snd e) = true).
Proof.
  simpl. intros H. apply andb_true_iff in H as (Hf & Hs).
  rewrite forallb_forall in Hf, Hs. split; [|exact Hs].
  intros e He. specialize (Hf e He). apply orb_true_iff in Hf as [Hf | Hf].
  - now left.
  - right. now apply negb_true_iff.
Qed.

Lemma repair_all_suffixed (d : dir) :
  no_clash d = true ->
  all_files (fun name => endswith name ".dcm") (repair d) = true.
Proof.
  induction d as [files subdirs IH] using dir_induction.
  intros H. apply no_clash_free in H as (Hfree & Hsub).
  simpl. apply andb_true_iff. split; apply forallb_forall.
  - intros e He. now apply (rename_pass_all_suffixed subdirs files Hfree).
  - intros e He. apply in_map_iff in He as (e0 & <- & He0). cbn [snd].
    rewrite Forall_forall in IH. apply (IH e0 He0). now apply Hsub.
Qed.

Lemma file_paths_nonempty (d : dir) (path : list string) :
  In path (file_paths d) -> path <> [].
Proof.
  destruct d as [files subdirs]. simpl. intros H.
  apply in_app_iff in H as [H | H].
  - apply in_map_iff in H as (e & <- & _). discriminate.
  - apply in_flat_map in H as (e & _ & H).
    apply in_map_iff in H as (q & <- & _). discriminate.
Qed.

Lemma repair_suffixes_paths (d : dir) :
  no_clash d = true ->
  forall path, In path (file_paths d) ->
               In (with_suffix_path path) (file_paths (repair d)).
Proof.
  induction d as [files subdirs IH] using dir_induction.
  intros H path Hp. apply no_clash_free in H as (Hfree & Hsub).
  simpl in Hp |- *. apply in_app_iff in Hp as [Hp | Hp]; apply in_app_iff.
  - left. apply in_map_iff in Hp as (e & <- & He). cbn [with_suffix_path].
    assert (Hin : In (with_suffix (fst e))
                     (map fst (fst (rename_pass subdirs files)))).
    { apply rename_pass_suffixes; [exact Hfree | now apply in_map]. }
    apply in_map_iff in Hin as (e' & Heq & He').
    apply in_map_iff. exists e'. now rewrite Heq.
  - right. apply in_flat_map in Hp as (e & He & Hp).
    apply in_map_iff in Hp as (q & <- & Hq).
    apply in_flat_map. exists (fst e, repair (snd e)). split.
    + apply in_map_iff. now exists e.
    + cbn [fst snd]. apply in_map_iff. exists (with_suffix_path q). split.
      * pose proof (file_paths_nonempty _ _ Hq) as Hne.
        destruct q as [|x q]; [contradiction | reflexivity].
      * rewrite Forall_forall in IH. apply (IH e He); [now apply Hsub | exact Hq].
Qed.

(** C8, as the code has it: a second pass changes nothing, whatever the
    tree. After one pass the files are those from before, each in its
    directory under its final name: a file that lacks the suffix bears
    its name with [.dcm] appended, unless a sibling directory has that
    name, in which case the rename is refused and the file keeps its
    name; a file that has the suffix keeps it. So when no such
    directory is in the way, one pass leaves every file with the
    suffix. A lone file [1.2.840] becomes [1.2.840.dcm]. *)
Theorem repair_pass_idempotent (d : dir) :
  repair (repair d) = repair d
  /\ (forall path, In path (file_paths (repair d)) <-> In path (final_paths d))
  /\ (no_clash d = true ->
      all_files (fun name => endswith name ".dcm") (repair d) = true
      /\ forall path, In path (file_paths d) ->
                      In (with_suffix_path path) (file_paths (repair d)))
  /\ (forall content,
        repair (Dir [("1.2.840", content)] []) = Dir [("1.2.840.dcm", content)] []).
Proof.
  split; [apply repair_idempotent|]. split; [apply repair_final_paths|]. split.
  - intros H. split; [now apply repair_all_suffixed|].
    now apply repair_suffixes_paths.
  - reflexivity.
Qed.

(** A study directory as [getscu] fills it, with one file that already
    has the suffix; and a tree where a directory is in the way of one
    file: that file keeps its name, the others get the suffix. *)
Lemma repair_pass_example :
  let d := Dir [("1.2.840", "a")]
               [("study", Dir [("IM1", "b"); ("IM2.dcm", "c")] [])] in
  let clash := Dir [("1.2.840", "a"); ("IM1", "b")]
                   [("1.2.840.dcm", Dir [("IM2", "c")] [])] in
  repair d = Dir [("1.2.840.dcm", "a")]
                 [("study", Dir [("IM1.dcm", "b"); ("IM2.dcm", "c")] [])]
  /\ repair (repair d) = repair d
  /\ In ["study"; "IM1.dcm"] (file_paths (repair d))
  /\ (In ["1.2.840"] (file_paths (repair clash))
      /\ In ["IM1.dcm"] (file_paths (repair clash))
      /\ In ["1.2.840.dcm"; "IM2.dcm"] (file_paths (repair clash))).
Proof.
  cbv zeta.
  destruct (repair_pass_idempotent
              (Dir [("1.2.840", "a")]
                   [("study", Dir [("IM1", "b"); ("IM2.dcm", "c")] [])]))
    as (Hidem & _ & Hall & _).
  destruct (repair_pass_idempotent
              (Dir [("1.2.840", "a"); ("IM1", "b")]
                   [("1.2.840.dcm", Dir [("IM2", "c")] [])]))
    as (_ & Hfinal & _).
  split; [reflexivity|]. split; [exact Hidem|]. split.
  - destruct (Hall eq_refl) as (_ & Hpaths).
    apply (Hpaths ["study"; "IM1"]). simpl. auto.
  - repeat split; apply Hfinal; simpl; auto.
Defined.

(** C8, as stated, fails: a file whose target name is a directory keeps
    its name, the rename being refused. *)
Lemma clashing_file_keeps_its_name :
  let d := Dir [("1.2.840", "a")] [("1.2.840.dcm", Dir [] [])] in
  repair d = d
  /\ all_files (fun name => endswith name ".dcm") (repair d) = false.
Proof. split; reflexivity. Qed.

End FileSinkFacts.

Module AssociationFacts.

Import PyStr Retriever.
Local Open Scope Z_scope.

Lemma count_app (p : event -> bool) (t1 t2 : list event) :
  count p (t1 ++ t2) = (count p t1 + count p t2)%nat.
Proof. unfold count. now rewrite filter_app, length_app. Qed.

Lemma count_cons (p : event -> bool) (e : event) (t : list event) :
  count p (e :: t) = ((if p e then 1 else 0) + count p t)%nat.
Proof. unfold count. simpl. now destruct (p e). Qed.

Lemma count_none (p : event -> bool) (t : list event) :
  (forall e, In e t -> p e = false) -> count p t = O.
Proof.
  unfold count. induction t as [|e t IH]; intros H; simpl; [reflexivity|].
  rewrite (H e) by now left. apply IH. intros x Hx. apply H. now right.
Qed.

(** The trace of [find_nm_series], by the way its loop ends. *)
Lemma find_nm_series_trace (responses : stream find_response)
    (study_uid : string) (limit : option Z) :
  snd (find_nm_series (Established responses) study_uid limit)
  = [EvAssociate true; EvCFind SERIES study_uid;
     if snd (series_loop limit (items responses) [])
     then EvRelease
     else match stream_end responses with
          | Exhausted => EvRelease
          | Raises => EvLog LogSeriesError
          end].
Proof.
  unfold find_nm_series.
  destruct (series_loop limit (items responses) []) as [series broke].
  destruct broke, (stream_end responses); reflexivity.
Qed.

(** C2, as the code has it: [find_nm_studies] and [find_nm_series]
    release the association they opened when the query and the
    iteration over the responses end without raising, and
    [find_nm_series] also when it leaves its loop at the limit. When
    the query or the iteration raises, neither releases: the call logs
    the error and returns. An association that was not established is
    not released either. *)
Theorem find_releases_unless_raised (now : Z) (p : peer find_response)
    (limit : option Z) (study_date : option string) (study_uid : string) :
  let studies := snd (find_nm_studies now p limit study_date) in
  let series := snd (find_nm_series p study_uid limit) in
  match p with
  | Established responses =>
      count is_established studies = 1%nat
      /\ count is_established series = 1%nat
      /\ count is_release studies
         = match stream_end responses with
           | Exhausted => 1%nat
           | Raises => 0%nat
           end
      /\ count is_release series
         = (if snd (series_loop limit (items responses) []) then 1%nat
            else match stream_end responses with
                 | Exhausted => 1%nat
                 | Raises => 0%nat
                 end)
  | _ =>
      count is_established studies = 0%nat
      /\ count is_established series = 0%nat
      /\ count is_release studies = 0%nat
      /\ count is_release series = 0%nat
  end.
Proof.
  cbv zeta. destruct p as [| |responses]; try (repeat split; reflexivity).
  rewrite find_nm_series_trace. unfold find_nm_studies.
  destruct (stream_end responses).
  - destruct (collect (items responses) []) as [|d all]; cbn [snd];
      rewrite !count_app;
      destruct (snd (series_loop limit (items responses) []));
      repeat split; reflexivity.
  - destruct (snd (series_loop limit (items responses) []));
      repeat split; reflexivity.
Qed.

(** C2, as stated, fails: the archive answers one study and the
    iteration then raises; the association was established and no
    release follows, in either find. *)
Lemma find_raises_without_release :
  let p := Established {| items := [(Some 0xFF00, Some Samples.A)];
                          stream_end := Raises |} in
  let studies := snd (find_nm_studies Samples.today p None None) in
  let series := snd (find_nm_series p "1.2.1" None) in
  (count is_established studies = 1%nat /\ count is_release studies = 0%nat)
  /\ (count is_established series = 1%nat /\ count is_release series = 0%nat).
Proof. repeat split; reflexivity. Qed.

(** A find that completes, one that stops at its limit, one that
    raises. *)
Lemma find_release_examples :
  let done := Established (Samples.matches [Samples.A; Samples.B]) in
  let raised := Established {| items := [(Some 0xFF00, Some Samples.A);
                                         (Some 0xFF00, Some Samples.B)];
                               stream_end := Raises |} in
  count is_release (snd (find_nm_studies Samples.today done None None)) = 1%nat
  /\ count is_release (snd (find_nm_series raised "1.2.1" (Some 1))) = 1%nat
  /\ count is_release (snd (find_nm_series raised "1.2.1" None)) = 0%nat.
Proof.
  cbv zeta. split; [|split].
  - apply (find_releases_unless_raised Samples.today
             (Established (Samples.matches [Samples.A; Samples.B]))
             None None "1.2.1").
  - apply (find_releases_unless_raised Samples.today
             (Established {| items := [(Some 0xFF00, Some Samples.A);
                                       (Some 0xFF00, Some Samples.B)];
                             stream_end := Raises |})
             (Some 1) None "1.2.1").
  - apply (find_releases_unless_raised Samples.today
             (Established {| items := [(Some 0xFF00, Some Samples.A);
                                       (Some 0xFF00, Some Samples.B)];
                             stream_end := Raises |})
             None None "1.2.1").
Defined.

End AssociationFacts.

Module MoveFacts.

Import PyStr Retriever AssociationFacts.
Local Open Scope Z_scope.

Lemma handle_store_counter (cfg : config) (image_count : Z)
    (ds : StoredDataset) (io : store_io) :
  fst (fst (handle_store cfg image_count ds io)) = image_count + 1.
Proof.
  unfold handle_store.
  destruct (dry_run cfg), (mkdir_raises io), (save_raises io); reflexivity.
Qed.

Lemma handle_store_no_server (cfg : config) (image_count : Z)
    (ds : StoredDataset) (io : store_io) :
  count is_server_start (snd (handle_store cfg image_count ds io)) = O.
Proof.
  unfold handle_store.
  destruct (dry_run cfg), (mkdir_raises io), (save_raises io); reflexivity.
Qed.

(** Every object that comes in moves the counter by one, stored or not. *)
Lemma move_loop_counter (cfg : config) (responses : list move_item) (image_count : Z) :
  fst (move_loop cfg image_count responses)
  = image_count + incoming_count responses.
Proof.
  revert image_count.
  induction responses as [|[ds io|status] rest IH]; intros image_count;
    cbn [move_loop incoming_count].
  - cbn [fst]. lia.
  - pose proof (handle_store_counter cfg image_count ds io) as Hc.
    destruct (handle_store cfg image_count ds io) as [[c h] stored].
    cbn [fst] in Hc. subst c.
    specialize (IH (image_count + 1)).
    destruct (move_loop cfg (image_count + 1) rest) as [c trace].
    cbn [fst] in IH |- *. lia.
  - specialize (IH image_count).
    destruct (move_loop cfg image_count rest) as [c trace]. cbn [fst] in IH.
    destruct status as [s|]; [destruct (move_warning s)|]; cbn [fst]; exact IH.
Qed.

Lemma move_loop_warns (cfg : config) (responses : list move_item)
    (image_count : Z) (s : Z) :
  In (Response (Some s)) responses ->
  move_warning s = true ->
  In (EvLog (LogMoveStatus s)) (snd (move_loop cfg image_count responses)).
Proof.
  intros Hin Hw. revert image_count.
  induction responses as [|item rest IH]; intros image_count; [contradiction|].
  destruct Hin as [-> | Hin]; simpl.
  - destruct (move_loop cfg image_count rest) as [c trace].
    rewrite Hw. now left.
  - specialize (IH Hin). destruct item as [ds io|status].
    + destruct (handle_store cfg image_count ds io) as [[c h] stored].
      specialize (IH c). destruct (move_loop cfg c rest) as [c' trace].
      cbn [snd] in IH |- *. apply in_or_app. now right.
    + specialize (IH image_count).
      destruct (move_loop cfg image_count rest) as [c trace]. cbn [snd] in IH.
      destruct status as [s'|]; [destruct (move_warning s')|]; cbn [snd];
        auto using in_cons.
Qed.

Lemma move_loop_no_server (cfg : config) (responses : list move_item)
    (image_count : Z) :
  count is_server_start (snd (move_loop cfg image_count responses)) = O.
Proof.
  revert image_count.
  induction responses as [|[ds io|status] rest IH]; intros image_count; simpl.
  - reflexivity.
  - pose proof (handle_store_no_server cfg image_count ds io) as Hs.
    destruct (handle_store cfg image_count ds io) as [[c h] stored].
    specialize (IH c). destruct (move_loop cfg c rest) as [c' trace].
    cbn [snd] in *. rewrite count_app. lia.
  - specialize (IH image_count).
    destruct (move_loop cfg image_count rest) as [c trace]. cbn [snd] in IH.
    destruct status as [s|]; [destruct (move_warning s)|]; cbn [snd];
      rewrite ?count_cons; exact IH.
Qed.

(** One call starts the listener once, whatever happens next. *)
Lemma retrieve_with_move_one_server (cfg : config) (image_count : Z)
    (l : listener) (ds : RetrieveQuery) :
  count is_server_start (snd (_retrieve_with_move cfg image_count l ds)) = 1%nat.
Proof.
  unfold _retrieve_with_move.
  destruct l as [| |[| |responses]]; try reflexivity.
  pose proof (move_loop_no_server cfg (items responses) image_count) as Hs.
  destruct (move_loop cfg image_count (items responses)) as [c trace].
  cbn [snd] in Hs.
  destruct (stream_end responses); cbn [snd];
    rewrite !count_app, Hs; reflexivity.
Qed.

(** The loop of [retrieve_study] goes through every series. *)
Lemma series_retrieval_visits_all (cfg : config) (w : world)
    (study_uid : string) (nm_series : list Dataset) (image_count : Z)
    (success : bool) :
  use_c_get cfg = false ->
  count is_server_start
    (snd (series_retrieval cfg w image_count study_uid nm_series success))
  = List.length nm_series.
Proof.
  intros Hmove. revert image_count success.
  induction nm_series as [|series rest IH]; intros image_count success; simpl.
  - reflexivity.
  - unfold retrieve_series. rewrite Hmove.
    pose proof (retrieve_with_move_one_server cfg image_count
                  (move_listener w study_uid (SeriesInstanceUID series))
                  {| QueryRetrieveLevel := SERIES;
                     query_StudyInstanceUID := study_uid;
                     query_SeriesInstanceUID := Some (SeriesInstanceUID series) |})
      as Hone.
    destruct (_retrieve_with_move _ _ _ _) as [[ok c] trace].
    specialize (IH c (if ok then success else false)).
    destruct (series_retrieval cfg w c study_uid rest _) as [[ok' c'] trace'].
    cbn [snd] in *. rewrite count_app. lia.
Qed.

(** C3, as the code has it: a C-MOVE whose responses are read to the
    end reports success whatever status codes came back; the codes
    0xA701, 0xA702, 0xA900 and 0xC000 are logged as a warning, and
    that is all. Failed or not, every series of the study gets its
    turn. *)
Theorem move_status_only_logged (cfg : config) (w : world) (image_count : Z)
    (responses : stream move_item) (ds : RetrieveQuery) :
  stream_end responses = Exhausted ->
  use_c_get cfg = false ->
  fst (fst (_retrieve_with_move cfg image_count
              (ServerUp (Established responses)) ds)) = true
  /\ (forall s, In (Response (Some s)) (items responses) ->
                move_warning s = true ->
                In (EvLog (LogMoveStatus s))
                   (snd (_retrieve_with_move cfg image_count
                           (ServerUp (Established responses)) ds)))
  /\ (forall study_uid nm_series success,
        count is_server_start
          (snd (series_retrieval cfg w image_count study_uid nm_series success))
        = List.length nm_series).
Proof.
  intros Hend Hmove. split; [|split].
  - unfold _retrieve_with_move. rewrite Hend.
    now destruct (move_loop cfg image_count (items responses)).
  - intros s Hin Hw. unfold _retrieve_with_move. rewrite Hend.
    pose proof (move_loop_warns cfg (items responses) image_count s Hin Hw) as H.
    destruct (move_loop cfg image_count (items responses)) as [c trace].
    cbn [snd] in *. apply in_or_app. right. apply in_or_app. now left.
  - intros study_uid nm_series success.
    now apply series_retrieval_visits_all.
Qed.

(** C3, as stated, fails: the archive answers the move with 0xC000
    (unable to process); the call logs the status and reports success. *)
Lemma move_failure_status_reports_success :
  let l := ServerUp (Established {| items := [Response (Some 0xC000)];
                                    stream_end := Exhausted |}) in
  let ds := {| QueryRetrieveLevel := SERIES;
               query_StudyInstanceUID := "1.2.1";
               query_SeriesInstanceUID := Some "1.2.1.1" |} in
  fst (fst (_retrieve_with_move (Samples.cfg false false) 0 l ds)) = true
  /\ In (EvLog (LogMoveStatus 0xC000))
        (snd (_retrieve_with_move (Samples.cfg false false) 0 l ds)).
Proof. split; [reflexivity | simpl; auto]. Qed.

(** Two series, the first refused with 0xA701: both are moved, both
    calls report success. *)
Lemma move_status_example :
  let refused := {| items := [Response (Some 0xA701)]; stream_end := Exhausted |} in
  let w := {| now := Samples.today;
              study_peer := Rejected;
              series_peer := fun _ => Rejected;
              move_listener := fun _ _ => ServerUp (Established refused);
              getscu := fun _ _ => ToolMissing |} in
  let ds := {| QueryRetrieveLevel := SERIES;
               query_StudyInstanceUID := "1.2.1";
               query_SeriesInstanceUID := Some "1.2.1.1" |} in
  fst (fst (_retrieve_with_move (Samples.cfg false false) 0
              (ServerUp (Established refused)) ds)) = true
  /\ count is_server_start
        (snd (series_retrieval (Samples.cfg false false) w 0 "1.2.1"
                [Samples.series "1.2.1" "1.2.1.1";
                 Samples.series "1.2.1" "1.2.1.2"] true))
     = 2%nat.
Proof.
  cbv zeta.
  pose proof (move_status_only_logged (Samples.cfg false false)
                {| now := Samples.today;
                   study_peer := Rejected;
                   series_peer := fun _ => Rejected;
                   move_listener := fun _ _ =>
                     ServerUp (Established
                       {| items := [Response (Some 0xA701)];
                          stream_end := Exhausted |});
                   getscu := fun _ _ => ToolMissing |}
                0
                {| items := [Response (Some 0xA701)]; stream_end := Exhausted |}
                {| QueryRetrieveLevel := SERIES;
                   query_StudyInstanceUID := "1.2.1";
                   query_SeriesInstanceUID := Some "1.2.1.1" |}
                eq_refl eq_refl) as (Hok & _ & Hall).
  split; [exact Hok|].
  exact (Hall "1.2.1" [Samples.series "1.2.1" "1.2.1.1";
                       Samples.series "1.2.1" "1.2.1.2"] true).
Defined.




End MoveFacts.

Module ToolFacts.

Import PyStr Retriever AssociationFacts.
Local Open Scope Z_scope.

Lemma completed_step_count_line (completed : Z) (line : string) :
  completed_step completed line
  = match count_line line with
    | Some n => n
    | None => completed
    end.
Proof.
  unfold completed_step, count_line.
  destruct (contains "Completed Suboperations" line); [|reflexivity].
  destruct (nth_error (split ":" line) 1); reflexivity.
Qed.

(** [completed] keeps its value or takes the count of one of the lines. *)
Lemma completed_from_a_line (lines : list string) (completed : Z) :
  fold_left completed_step lines completed = completed
  \/ exists line n,
       In line lines /\ count_line line = Some n
       /\ fold_left completed_step lines completed = n.
Proof.
  revert completed. induction lines as [|line rest IH]; intros completed; simpl.
  - now left.
  - destruct (IH (completed_step completed line)) as [Hsame | (l & n & Hl & Hn & Hv)].
    + rewrite Hsame, completed_step_count_line.
      destruct (count_line line) as [n|] eqn:E; [|now left].
      right. exists line, n. auto.
    + right. exists l, n. auto.
Qed.

Lemma completed_unchanged (lines : list string) (completed : Z) :
  (forall line, In line lines -> count_line line = None) ->
  fold_left completed_step lines completed = completed.
Proof.
  revert completed. induction lines as [|line rest IH]; intros completed H; simpl.
  - reflexivity.
  - rewrite completed_step_count_line, (H line) by now left.
    apply IH. intros l Hl. apply H. now right.
Qed.

Lemma no_count_line_zero (stdout : string) :
  no_count_line stdout = true -> parse_completed stdout = 0.
Proof.
  unfold no_count_line, parse_completed. rewrite forallb_forall. intros H.
  apply completed_unchanged. intros line Hl. specialize (H line Hl).
  now destruct (count_line line).
Qed.

(** A successful call: the counter moves by [completed] when that is
    positive, and the call reports success either way. *)
Lemma retrieve_with_get_success (cfg : config) (image_count : Z)
    (stdout stderr : string) (listing : FileSink.dir) (ds : RetrieveQuery) :
  fst (fst (_retrieve_with_get cfg image_count
              (ToolExit 0 stdout stderr listing) ds)) = true
  /\ snd (fst (_retrieve_with_get cfg image_count
                 (ToolExit 0 stdout stderr listing) ds))
     = (if 0 <? parse_completed stdout
        then image_count + parse_completed stdout
        else image_count).
Proof.
  unfold _retrieve_with_get. rewrite Z.eqb_refl.
  destruct (0 <? parse_completed stdout); split; reflexivity.
Qed.

Lemma retrieve_with_get_uncounted (cfg : config) (image_count : Z)
    (run : tool_run) (ds : RetrieveQuery) :
  uncounted run = true ->
  snd (fst (_retrieve_with_get cfg image_count run ds)) = image_count.
Proof.
  unfold _retrieve_with_get, uncounted.
  destruct run as [| | |returncode stdout stderr listing]; try reflexivity.
  destruct (returncode =? 0); [|reflexivity]. simpl. intros H.
  now rewrite (no_count_line_zero _ H).
Qed.

Lemma retrieve_with_get_quiet (cfg : config) (image_count : Z)
    (run : tool_run) (ds : RetrieveQuery) :
  count is_image_limit (snd (_retrieve_with_get cfg image_count run ds)) = O.
Proof.
  unfold _retrieve_with_get.
  destruct run as [| | |returncode stdout stderr listing]; try reflexivity.
  destruct (returncode =? 0); [|reflexivity].
  destruct (0 <? parse_completed stdout);
    destruct (0 <? FileSink.renamed_count listing)%nat;
    cbn [snd]; rewrite !count_app; reflexivity.
Qed.

Lemma find_nm_series_quiet (p : peer find_response) (study_uid : string)
    (limit : option Z) :
  count is_image_limit (snd (find_nm_series p study_uid limit)) = O.
Proof.
  destruct p as [| |responses]; try reflexivity.
  rewrite find_nm_series_trace.
  destruct (snd (series_loop limit (items responses) []));
    [|destruct (stream_end responses)]; reflexivity.
Qed.

Lemma find_nm_studies_quiet (now : Z) (p : peer find_response)
    (limit : option Z) (study_date : option string) :
  count is_image_limit (snd (find_nm_studies now p limit study_date)) = O.
Proof.
  unfold find_nm_studies. destruct p as [| |responses]; try reflexivity.
  destruct (stream_end responses); [|reflexivity].
  destruct (collect (items responses) []); cbn [snd];
    rewrite count_app; reflexivity.
Qed.

Section UncountedCalls.

Variable cfg : config.
Variable w : world.
Hypothesis with_get : use_c_get cfg = true.
Hypothesis all_uncounted :
  forall study_uid series_uid, uncounted (getscu w study_uid series_uid) = true.

Lemma series_retrieval_uncounted (study_uid : string) (nm_series : list Dataset)
    (image_count : Z) (success : bool) :
  snd (fst (series_retrieval cfg w image_count study_uid nm_series success))
  = image_count
  /\ count is_image_limit
       (snd (series_retrieval cfg w image_count study_uid nm_series success)) = O.
Proof.
  revert image_count success.
  induction nm_series as [|series rest IH]; intros image_count success; simpl.
  - now split.
  - unfold retrieve_series. rewrite with_get.
    pose proof (retrieve_with_get_uncounted cfg image_count _
                  {| QueryRetrieveLevel := SERIES;
                     query_StudyInstanceUID := study_uid;
                     query_SeriesInstanceUID := Some (SeriesInstanceUID series) |}
                  (all_uncounted study_uid (SeriesInstanceUID series))) as Hc.
    pose proof (retrieve_with_get_quiet cfg image_count
                  (getscu w study_uid (SeriesInstanceUID series))
                  {| QueryRetrieveLevel := SERIES;
                     query_StudyInstanceUID := study_uid;
                     query_SeriesInstanceUID := Some (SeriesInstanceUID series) |})
      as Hq.
    destruct (_retrieve_with_get _ _ _ _) as [[ok c] trace].
    cbn [fst snd] in Hc, Hq. subst c.
    destruct (IH image_count (if ok then success else false)) as (IHc & IHq).
    destruct (series_retrieval cfg w image_count study_uid rest _)
      as [[ok' c'] trace'].
    cbn [fst snd] in *. split; [exact IHc|]. rewrite count_app. lia.
Qed.

Lemma retrieve_study_uncounted (study_uid : string) (image_count : Z) :
  snd (fst (retrieve_study cfg w image_count study_uid)) = image_count
  /\ count is_image_limit (snd (retrieve_study cfg w image_count study_uid)) = O.
Proof.
  unfold retrieve_study. destruct (dry_run cfg); [now split|].
  pose proof (find_nm_series_quiet (series_peer w study_uid) study_uid None) as Hq.
  destruct (find_nm_series (series_peer w study_uid) study_uid None)
    as [nm_series found].
  cbn [snd] in Hq. destruct nm_series as [|series rest].
  - cbn [fst snd]. split; [reflexivity|]. rewrite count_app, Hq. reflexivity.
  - destruct (series_retrieval_uncounted study_uid (series :: rest)
                image_count true) as (Hc & Hl).
    destruct (series_retrieval cfg w image_count study_uid (series :: rest) true)
      as [[ok c] trace].
    cbn [fst snd] in *. split; [exact Hc|]. rewrite count_app. lia.
Qed.

(** The loop over the studies never meets its [break]. *)
Lemma study_loop_uncounted (max_images : option Z) (studies : list Dataset)
    (image_count : Z) :
  image_limit_reached max_images image_count = false ->
  fst (study_loop cfg w max_images image_count studies) = image_count
  /\ count is_image_limit
       (snd (study_loop cfg w max_images image_count studies)) = O.
Proof.
  intros Hlimit. induction studies as [|study rest IH]; simpl.
  - now split.
  - destruct (retrieve_study_uncounted (StudyInstanceUID study) image_count)
      as (Hc & Hq).
    destruct (retrieve_study cfg w image_count (StudyInstanceUID study))
      as [[ok c] trace].
    cbn [fst snd] in Hc, Hq. subst c. rewrite Hlimit.
    destruct IH as (IHc & IHq).
    destruct (study_loop cfg w max_images image_count rest) as [c' trace'].
    cbn [fst snd] in *. split; [exact IHc|]. rewrite count_app. lia.
Qed.

Lemma retrieve_images_uncounted (max_studies max_images : option Z)
    (image_count : Z) :
  image_limit_reached max_images image_count = false ->
  fst (retrieve_images cfg w max_studies max_images image_count) = image_count
  /\ count is_image_limit
       (snd (retrieve_images cfg w max_studies max_images image_count)) = O.
Proof.
  intros Hlimit. unfold retrieve_images.
  pose proof (find_nm_studies_quiet (now w) (study_peer w) max_studies
                (study_date cfg)) as Hq.
  destruct (find_nm_studies (now w) (study_peer w) max_studies (study_date cfg))
    as [studies found].
  cbn [snd] in Hq. destruct studies as [|study rest].
  - cbn [fst snd]. split; [reflexivity|]. rewrite count_app, Hq. reflexivity.
  - destruct (study_loop_uncounted max_images (study :: rest) image_count Hlimit)
      as (Hc & Hl).
    destruct (study_loop cfg w max_images image_count (study :: rest))
      as [c trace].
    cbn [fst snd] in *. split; [exact Hc|].
    rewrite !count_app, Hq, Hl.
    destruct (0 <? total_images (study :: rest)), (dry_run cfg); reflexivity.
Qed.

End UncountedCalls.

Lemma last_cons {A : Type} (x : A) (xs : list A) (d : A) :
  last (x :: xs) d = last xs x.
Proof.
  revert x d. induction xs as [|y ys IH]; intros x d; [reflexivity|].
  change (last (x :: y :: ys) d) with (last (y :: ys) d).
  now rewrite (IH y d), (IH y x).
Qed.

(** [completed] ends as the count of the last line that yields one. *)
Lemma completed_is_last_count (lines : list string) (completed : Z) :
  fold_left completed_step lines completed
  = last (flat_map (fun line => match count_line line with
                                | Some n => [n]
                                | None => []
                                end) lines)
         completed.
Proof.
  revert completed. induction lines as [|line rest IH]; intros completed; simpl.
  - reflexivity.
  - rewrite IH, completed_step_count_line.
    destruct (count_line line) as [n|]; simpl app; [|reflexivity].
    now rewrite last_cons.
Qed.

Lemma parse_completed_last (stdout : string) :
  parse_completed stdout = last (line_counts stdout) 0.
Proof. apply completed_is_last_count. Qed.

(** C10: a [getscu] call that exits with 0 reports success and moves
    the counter by exactly the integer read from the last line that
    bears [Completed Suboperations] and yields one, when that integer
    is positive, and by nothing otherwise; when no line yields an
    integer the counter stays, whatever the tool left in the output
    directory. A run all of whose calls are of that kind (or fail)
    ends with the counter it began with and never logs that the image
    limit is reached. *)
Theorem getscu_counts_parsed_only (cfg : config) (image_count : Z)
    (stdout stderr : string) (listing : FileSink.dir) (ds : RetrieveQuery) :
  let call := _retrieve_with_get cfg image_count
                (ToolExit 0 stdout stderr listing) ds in
  fst (fst call) = true
  /\ snd (fst call) = image_count + Z.max 0 (last (line_counts stdout) 0)
  /\ (no_count_line stdout = true -> snd (fst call) = image_count)
  /\ (forall w max_studies max_images,
        use_c_get cfg = true ->
        (forall study_uid series_uid,
            uncounted (getscu w study_uid series_uid) = true) ->
        image_limit_reached max_images image_count = false ->
        fst (retrieve_images cfg w max_studies max_images image_count)
        = image_count
        /\ count is_image_limit
             (snd (retrieve_images cfg w max_studies max_images image_count))
           = O).
Proof.
  cbv zeta.
  destruct (retrieve_with_get_success cfg image_count stdout stderr listing ds)
    as (Hok & Hcount).
  split; [exact Hok|]. split; [|split].
  - rewrite Hcount, <- parse_completed_last.
    destruct (Z.ltb_spec 0 (parse_completed stdout)); lia.
  - intros Hnone. rewrite Hcount, (no_count_line_zero _ Hnone). reflexivity.
  - intros w max_studies max_images Hget Hall Hlimit.
    now apply retrieve_images_uncounted.
Qed.

(** Two studies of one series each. The tool exits with 0, prints no
    count and leaves a file behind each time; with a limit of one image
    the run still fetches both studies and ends with a counter of 0.
    Had it printed a count of 12 after one of 3, a counter of 5 would
    have gone to 17. *)
Lemma uncounted_run_example :
  let output := "I: Received Final Get Response (Success)" in
  let listing := FileSink.Dir [("1.2.840", "pixels")] [] in
  let w := {| now := Samples.today;
              study_peer := Established (Samples.matches [Samples.A; Samples.B]);
              series_peer := fun study_uid =>
                Established (Samples.matches [Samples.series study_uid "1"]);
              move_listener := fun _ _ => ServerNone;
              getscu := fun _ _ => ToolExit 0 output "" listing |} in
  let ds := {| QueryRetrieveLevel := SERIES;
               query_StudyInstanceUID := "1.2.1";
               query_SeriesInstanceUID := Some "1" |} in
  let run := retrieve_images (Samples.cfg false true) w None (Some 1) 0 in
  (fst run = 0
   /\ count is_image_limit (snd run) = O
   /\ count is_tool_run (snd run) = 2%nat)
  /\ snd (fst (_retrieve_with_get (Samples.cfg false true) 5
                 (ToolExit 0 ("Completed Suboperations: 3"
                              ++ String newline "Completed Suboperations: 12")
                    "" listing) ds))
     = 17.
Proof.
  cbv zeta. split.
  - pose proof (getscu_counts_parsed_only (Samples.cfg false true) 0
                  "I: Received Final Get Response (Success)" ""
                  (FileSink.Dir [("1.2.840", "pixels")] [])
                  {| QueryRetrieveLevel := SERIES;
                     query_StudyInstanceUID := "1.2.1";
                     query_SeriesInstanceUID := Some "1" |})
      as (_ & _ & _ & Hrun).
    destruct (Hrun
                {| now := Samples.today;
                   study_peer := Established (Samples.matches [Samples.A; Samples.B]);
                   series_peer := fun study_uid =>
                     Established (Samples.matches [Samples.series study_uid "1"]);
                   move_listener := fun _ _ => ServerNone;
                   getscu := fun _ _ =>
                     ToolExit 0 "I: Received Final Get Response (Success)" ""
                       (FileSink.Dir [("1.2.840", "pixels")] []) |}
                None (Some 1) eq_refl (fun _ _ => eq_refl) eq_refl)
      as (Hcount & Hquiet).
    split; [exact Hcount|]. split; [exact Hquiet|]. reflexivity.
  - pose proof (getscu_counts_parsed_only (Samples.cfg false true) 5
                  ("Completed Suboperations: 3"
                   ++ String newline "Completed Suboperations: 12") ""
                  (FileSink.Dir [("1.2.840", "pixels")] [])
                  {| QueryRetrieveLevel := SERIES;
                     query_StudyInstanceUID := "1.2.1";
                     query_SeriesInstanceUID := Some "1" |})
      as (_ & Hexact & _).
    cbv zeta in Hexact. rewrite Hexact. reflexivity.
Defined.

(** With a count in the second field the counter moves by it; behind a
    logger prefix the second field is the marker itself and nothing
    parses. *)
Example counted_call :
  let ds := {| QueryRetrieveLevel := SERIES;
               query_StudyInstanceUID := "1.2.1";
               query_SeriesInstanceUID := Some "1" |} in
  snd (fst (_retrieve_with_get (Samples.cfg false true) 5
              (ToolExit 0 "Completed Suboperations: 12" "" (FileSink.Dir [] []))
              ds)) = 17
  /\ snd (fst (_retrieve_with_get (Samples.cfg false true) 5
                 (ToolExit 0 "D: Completed Suboperations       : 12" ""
                    (FileSink.Dir [] []))
                 ds)) = 5.
Proof. split; reflexivity. Qed.

(** Of several lines that parse, the last one gives the count. *)
Example last_count_wins :
  parse_completed ("Completed Suboperations: 3"
                   ++ String newline "Completed Suboperations: 7") = 7.
Proof. reflexivity. Qed.

End ToolFacts.

Module DryRunFacts.

Import PyStr Retriever AssociationFacts.
Local Open Scope Z_scope.

(** The study find writes nothing and moves nothing; when it returns
    studies it has sent exactly one C-FIND. *)
Lemma find_nm_studies_effects (now : Z) (p : peer find_response)
    (limit : option Z) (study_date : option string) :
  let found := find_nm_studies now p limit study_date in
  count is_fs_write (snd found) = O
  /\ count is_transport (snd found) = O
  /\ count is_series_find (snd found) = O
  /\ (fst found <> [] -> count is_study_find (snd found) = 1%nat).
Proof.
  cbv zeta. unfold find_nm_studies.
  destruct p as [| |responses]; try (repeat split; try reflexivity; now intros []).
  destruct (stream_end responses);
    [|repeat split; try reflexivity; now intros []].
  destruct (collect (items responses) []) as [|d all]; cbn [fst snd];
    rewrite !count_app; repeat split; reflexivity.
Qed.

(** In a dry run the loop over the studies only logs. *)
Lemma study_loop_dry (cfg : config) (w : world) (max_images : option Z)
    (studies : list Dataset) (image_count : Z) (p : event -> bool) :
  dry_run cfg = true ->
  (forall l, p (EvLog l) = false) ->
  fst (study_loop cfg w max_images image_count studies) = image_count
  /\ count p (snd (study_loop cfg w max_images image_count studies)) = O.
Proof.
  intros Hdry Hp. induction studies as [|study rest IH]; simpl.
  - now split.
  - unfold retrieve_study. rewrite Hdry.
    destruct (image_limit_reached max_images image_count).
    + cbn [fst snd]. split; [reflexivity|]. simpl app.
      rewrite !count_cons, !Hp. reflexivity.
    + destruct IH as (IHc & IHp).
      destruct (study_loop cfg w max_images image_count rest) as [c trace].
      cbn [fst snd] in *. split; [exact IHc|]. simpl app.
      rewrite count_cons, Hp, IHp. reflexivity.
Qed.

Lemma total_images_nil_free (studies : list Dataset) :
  0 < total_images studies -> studies <> [].
Proof. intros H ->. simpl in H. lia. Qed.

(** Go through a trace given by its pieces for an event that is not
    there. *)
Ltac no_such_event :=
  repeat match goal with
         | H : In _ (_ ++ _) |- _ => apply in_app_iff in H; destruct H as [H | H]
         | H : In _ (_ :: _) |- _ =>
             destruct H as [H | H]; [try discriminate H|]
         | H : In _ [] |- _ => contradiction H
         end.

Lemma find_nm_studies_no_estimate (now : Z) (p : peer find_response)
    (limit : option Z) (study_date : option string) (n : Z) :
  ~ In (EvLog (LogEstimatedTotal n)) (snd (find_nm_studies now p limit study_date)).
Proof.
  intros H. unfold find_nm_studies in H. destruct p as [| |responses].
  - cbn [snd] in H. no_such_event.
  - cbn [snd] in H. no_such_event.
  - destruct (stream_end responses);
      [destruct (collect (items responses) [])|];
      cbn [snd] in H; no_such_event.
Qed.

Lemma study_loop_dry_no_estimate (cfg : config) (w : world)
    (max_images : option Z) (studies : list Dataset) (image_count : Z) (n : Z) :
  dry_run cfg = true ->
  ~ In (EvLog (LogEstimatedTotal n))
       (snd (study_loop cfg w max_images image_count studies)).
Proof.
  intros Hdry. induction studies as [|study rest IH]; simpl; [auto|].
  unfold retrieve_study. rewrite Hdry.
  destruct (image_limit_reached max_images image_count).
  - cbn [snd]. intros H. no_such_event.
  - destruct (study_loop cfg w max_images image_count rest) as [c trace].
    cbn [snd] in *. intros H. no_such_event. contradiction.
Qed.

(** C1, as the code has it: a dry run logs an estimate exactly when
    the declared instance counts of the found studies sum to a
    positive total, and the estimate is that total. With or without
    an estimate it looks up no series, calls no transport, writes
    nothing and leaves the image counter as it was; when studies were
    found it has sent the study C-FIND once, and the closing dry-run
    line shows the counter, not the estimate. *)
Theorem dry_run_estimates_without_transfer (cfg : config) (w : world)
    (max_studies max_images : option Z) (image_count : Z) :
  dry_run cfg = true ->
  let studies :=
    fst (find_nm_studies (now w) (study_peer w) max_studies (study_date cfg)) in
  let run := retrieve_images cfg w max_studies max_images image_count in
  (forall n, In (EvLog (LogEstimatedTotal n)) (snd run)
             <-> n = total_images studies /\ 0 < n)
  /\ count is_fs_write (snd run) = O
  /\ count is_transport (snd run) = O
  /\ count is_series_find (snd run) = O
  /\ fst run = image_count
  /\ (studies <> [] ->
      count is_study_find (snd run) = 1%nat
      /\ In (EvLog (LogDryRunSummary image_count)) (snd run)).
Proof.
  intros Hdry. cbv zeta. unfold retrieve_images.
  pose proof (find_nm_studies_effects (now w) (study_peer w) max_studies
                (study_date cfg)) as Hfound.
  pose proof (find_nm_studies_no_estimate (now w) (study_peer w) max_studies
                (study_date cfg)) as Hnone.
  cbv zeta in Hfound.
  destruct (find_nm_studies (now w) (study_peer w) max_studies (study_date cfg))
    as [studies found].
  cbn [fst snd] in Hfound, Hnone |- *.
  destruct Hfound as (Hw & Ht & Hs & Hf).
  destruct studies as [|study rest].
  - cbn [fst snd]. rewrite !count_app, Hw, Ht, Hs.
    split; [|split; [|split; [|split; [|split]]]]; try reflexivity;
      [|intros Hsome; now contradiction Hsome].
    intros n. split.
    + intros H. no_such_event. now apply Hnone in H.
    + simpl. lia.
  - specialize (Hf ltac:(discriminate)).
    assert (Hloop : forall p, (forall l, p (EvLog l) = false) ->
              count p (snd (study_loop cfg w max_images image_count (study :: rest)))
              = O)
      by (intros p Hp; now apply study_loop_dry).
    destruct (study_loop_dry cfg w max_images (study :: rest) image_count
                is_fs_write Hdry (fun _ => eq_refl)) as (Hc & _).
    pose proof (fun n => study_loop_dry_no_estimate cfg w max_images
                           (study :: rest) image_count n Hdry) as Hquiet.
    destruct (study_loop cfg w max_images image_count (study :: rest))
      as [c trace].
    cbn [fst snd] in *. subst c. rewrite Hdry.
    split; [|split; [|split; [|split; [|split]]]].
    + intros n. split.
      * intros H. no_such_event.
        -- now apply Hnone in H.
        -- destruct (0 <? total_images (study :: rest)) eqn:E; no_such_event.
           injection H as <-. apply Z.ltb_lt in E. auto.
        -- now apply Hquiet in H.
      * intros (-> & Hpos). apply Z.ltb_lt in Hpos. rewrite Hpos.
        apply in_or_app. right. now left.
    + rewrite !count_app, Hw, (Hloop is_fs_write) by reflexivity.
      destruct (0 <? total_images (study :: rest)); reflexivity.
    + rewrite !count_app, Ht, (Hloop is_transport) by reflexivity.
      destruct (0 <? total_images (study :: rest)); reflexivity.
    + rewrite !count_app, Hs, (Hloop is_series_find) by reflexivity.
      destruct (0 <? total_images (study :: rest)); reflexivity.
    + reflexivity.
    + intros _. split.
      * rewrite !count_app, Hf, (Hloop is_study_find) by reflexivity.
        destruct (0 <? total_images (study :: rest)); reflexivity.
      * apply in_or_app. right. apply in_or_app. right.
        apply in_or_app. right. now left.
Qed.

(** Three studies of ten instances each: the estimate is 30, one
    C-FIND went out, nothing was fetched or written. *)
Lemma dry_run_three_studies :
  let w := {| now := Samples.today;
              study_peer :=
                Established (Samples.matches [Samples.A; Samples.B; Samples.C]);
              series_peer := fun study_uid =>
                Established (Samples.matches [Samples.series study_uid "1"]);
              move_listener := fun _ _ => ServerNone;
              getscu := fun _ _ => ToolMissing |} in
  let run := retrieve_images (Samples.cfg true true) w None None 0 in
  In (EvLog (LogEstimatedTotal 30)) (snd run)
  /\ count is_fs_write (snd run) = O
  /\ count is_transport (snd run) = O
  /\ count is_study_find (snd run) = 1%nat.
Proof.
  cbv zeta.
  destruct (dry_run_estimates_without_transfer (Samples.cfg true true)
              {| now := Samples.today;
                 study_peer :=
                   Established (Samples.matches [Samples.A; Samples.B; Samples.C]);
                 series_peer := fun study_uid =>
                   Established (Samples.matches [Samples.series study_uid "1"]);
                 move_listener := fun _ _ => ServerNone;
                 getscu := fun _ _ => ToolMissing |}
              None None 0 eq_refl)
    as (Hest & Hw & Ht & _ & _ & Hfound).
  split; [apply Hest; split; [reflexivity | lia]|].
  split; [exact Hw|]. split; [exact Ht|].
  apply Hfound. discriminate.
Defined.

(** C1, as stated, fails: three found studies that each declare 0
    instances. The sum is 0, the run logs no estimate, and its closing
    line shows the counter it started with. *)
Lemma dry_run_zero_declared_no_estimate :
  let empty uid := {| StudyInstanceUID := uid; SeriesInstanceUID := "";
                      ModalitiesInStudy := Some (VStr "NM");
                      NumberOfStudyRelatedInstances := Some 0 |} in
  let studies := [empty "1.2.1"; empty "1.2.2"; empty "1.2.3"] in
  let w := {| now := Samples.today;
              study_peer := Established (Samples.matches studies);
              series_peer := fun _ => Rejected;
              move_listener := fun _ _ => ServerNone;
              getscu := fun _ _ => ToolMissing |} in
  let run := retrieve_images (Samples.cfg true true) w None None 0 in
  fst (find_nm_studies (now w) (study_peer w) None
         (study_date (Samples.cfg true true))) = studies
  /\ total_images studies = 0
  /\ count is_estimate (snd run) = O
  /\ In (EvLog (LogDryRunSummary 0)) (snd run).
Proof. cbv zeta. repeat split; try reflexivity. simpl. auto 20. Qed.

End DryRunFacts.

(* ================================================================== *)
(** * Further properties of the finds *)
(* ================================================================== *)

Module FindCoverage.

Import PyStr Retriever Observations AssociationFacts.
Local Open Scope Z_scope.

Lemma collect_spec (responses : list find_response) (all_studies : list Dataset) :
  collect responses all_studies = all_studies ++ pending_identifiers responses.
Proof.
  revert all_studies.
  induction responses as [|[status identifier] rest IH]; intros all_studies; simpl.
  - now rewrite app_nil_r.
  - destruct (pending status); [destruct identifier as [d|]|]; rewrite IH; simpl;
      try reflexivity.
    now rewrite <- app_assoc.
Qed.

Lemma pending_identifiers_In (responses : list find_response) (d : Dataset) :
  In d (pending_identifiers responses)
  <-> exists status,
        In (Some status, Some d) responses
        /\ (status = 0xFF00 \/ status = 0xFF01).
Proof.
  unfold pending_identifiers. rewrite in_flat_map. split.
  - intros ([status identifier] & Hr & Hd). cbn [fst snd] in Hd.
    destruct status as [st|]; [|contradiction]. simpl in Hd.
    destruct ((st =? 0xFF00) || (st =? 0xFF01)) eqn:E; [|contradiction].
    destruct identifier as [d'|]; [|contradiction].
    destruct Hd as [-> | []]. exists st. split; [exact Hr|].
    apply orb_true_iff in E as [E | E]; apply Z.eqb_eq in E; auto.
  - intros (st & Hr & Hst). exists (Some st, Some d). split; [exact Hr|].
    cbn [fst snd]. unfold pending.
    replace ((st =? 0xFF00) || (st =? 0xFF01)) with true; [now left|].
    symmetry. apply orb_true_iff. destruct Hst as [-> | ->]; auto.
Qed.

Lemma firstn_incl {A : Type} (n : nat) (xs : list A) (x : A) :
  In x (firstn n xs) -> In x xs.
Proof.
  intros H. rewrite <- (firstn_skipn n xs). apply in_or_app. now left.
Qed.

Lemma up_to_limit_incl {A : Type} (limit : option Z) (xs : list A) (x : A) :
  In x (up_to_limit limit xs) -> In x xs.
Proof.
  unfold up_to_limit, slice_to. destruct limit as [l|]; [|auto].
  destruct (l =? 0); [auto|]. destruct (0 <=? l); apply firstn_incl.
Qed.

Lemma filter_nm_incl (limit : option Z) (all_studies nm_studies : list Dataset)
    (d : Dataset) :
  In d (filter_nm limit all_studies nm_studies) ->
  In d nm_studies \/ (In d all_studies /\ has_nm d = true).
Proof.
  revert nm_studies.
  induction all_studies as [|study rest IH]; intros nm_studies; simpl; [auto|].
  destruct (has_nm study) eqn:Hnm.
  - destruct (limit_reached limit (List.length (nm_studies ++ [study]))).
    + intros H. apply in_app_iff in H as [H | [<- | []]]; auto.
    + intros H. apply IH in H as [H | (H & Hd)]; [|auto].
      apply in_app_iff in H as [H | [<- | []]]; auto.
  - intros H. apply IH in H as [H | (H & Hd)]; auto.
Qed.

(** Whatever the limit and whatever the archive does, a study that
    [find_nm_studies] returns came in a pending response of a find that
    was read to its end, and its modalities text contains ['NM']. *)
Theorem find_returns_only_pending_nm (now : Z) (p : peer find_response)
    (limit : option Z) (study_date : option string) (d : Dataset) :
  In d (fst (find_nm_studies now p limit study_date)) ->
  has_nm d = true
  /\ exists responses status,
       p = Established responses
       /\ stream_end responses = Exhausted
       /\ In (Some status, Some d) (items responses)
       /\ (status = 0xFF00 \/ status = 0xFF01).
Proof.
  unfold find_nm_studies. destruct p as [| |responses]; try contradiction.
  destruct (stream_end responses) eqn:Hend; [|contradiction].
  rewrite collect_spec. simpl app.
  destruct (pending_identifiers (items responses)) as [|d0 all] eqn:Hall;
    [contradiction|].
  cbn [fst]. intros H. apply up_to_limit_incl, filter_nm_incl in H.
  destruct H as [[] | (Hin & Hnm)]. split; [exact Hnm|].
  rewrite <- Hall in Hin. apply pending_identifiers_In in Hin as (st & Hr & Hst).
  exists responses, st. auto.
Qed.

(** A success response that carries an identifier is no match: of the
    two answers only the pending one is returned. *)
Lemma find_returns_example :
  has_nm Samples.A = true
  /\ exists responses status,
       Established {| items := [(Some 0xFF00, Some Samples.A);
                                (Some 0x0000, Some Samples.C)];
                      stream_end := Exhausted |}
       = Established responses
       /\ stream_end responses = Exhausted
       /\ In (Some status, Some Samples.A) (items responses)
       /\ (status = 0xFF00 \/ status = 0xFF01).
Proof.
  apply (find_returns_only_pending_nm Samples.today
           (Established {| items := [(Some 0xFF00, Some Samples.A);
                                     (Some 0x0000, Some Samples.C)];
                           stream_end := Exhausted |})
           None None Samples.A).
  simpl. auto.
Defined.

Lemma series_loop_unlimited (responses : list find_response) (series : list Dataset) :
  series_loop None responses series = (series ++ pending_identifiers responses, false).
Proof.
  revert series.
  induction responses as [|[status identifier] rest IH]; intros series; simpl.
  - now rewrite app_nil_r.
  - destruct (pending status); [destruct identifier as [d|]|]; rewrite IH; simpl;
      try reflexivity.
    now rewrite <- app_assoc.
Qed.

Lemma series_loop_limited (limit : Z) (responses : list find_response)
    (series : list Dataset) :
  0 < limit ->
  (List.length series < Z.to_nat limit)%nat ->
  fst (series_loop (Some limit) responses series)
  = firstn (Z.to_nat limit) (series ++ pending_identifiers responses).
Proof.
  intros Hpos. revert series.
  induction responses as [|[status identifier] rest IH]; intros series Hlen; simpl.
  - rewrite app_nil_r. symmetry. apply firstn_all2. lia.
  - destruct (pending status); [destruct identifier as [d|]|]; simpl;
      try now apply IH.
    unfold limit_reached.
    replace (limit =? 0) with false by (symmetry; apply Z.eqb_neq; lia).
    simpl negb. cbv iota. rewrite andb_true_l.
    replace (series ++ d :: pending_identifiers rest)
      with ((series ++ [d]) ++ pending_identifiers rest)
      by (rewrite <- app_assoc; reflexivity).
    destruct (limit <=? Z.of_nat (List.length (series ++ [d]))) eqn:Hhit.
    + apply Z.leb_le in Hhit. rewrite length_app in Hhit. simpl in Hhit.
      cbn [fst]. rewrite firstn_app, length_app. simpl List.length.
      replace (Z.to_nat limit - (List.length series + 1))%nat with O by lia.
      rewrite firstn_O, app_nil_r. symmetry. apply firstn_all2.
      rewrite length_app. simpl. lia.
    + apply Z.leb_gt in Hhit. rewrite length_app in Hhit. simpl in Hhit.
      apply IH. rewrite length_app. simpl. lia.
Qed.

Lemma find_nm_series_result (responses : stream find_response)
    (study_uid : string) (limit : option Z) :
  fst (find_nm_series (Established responses) study_uid limit)
  = fst (series_loop limit (items responses) []).
Proof.
  unfold find_nm_series.
  destruct (series_loop limit (items responses) []) as [series broke].
  destruct broke, (stream_end responses); reflexivity.
Qed.

(** [find_nm_series] on an established association returns the
    identifiers of the pending responses, the first [limit] of them
    under a positive limit, and it does so however the response stream
    ends: when the iteration raises, the series collected so far are
    still returned. Without an established association it returns
    nothing. *)
Theorem find_nm_series_keeps_partial_results (responses : list find_response)
    (how : ending) (study_uid : string) :
  (forall limit,
      0 < limit ->
      fst (find_nm_series (Established {| items := responses; stream_end := how |})
             study_uid (Some limit))
      = firstn (Z.to_nat limit) (pending_identifiers responses))
  /\ fst (find_nm_series (Established {| items := responses; stream_end := how |})
            study_uid None)
     = pending_identifiers responses
  /\ fst (find_nm_series AssociateRaises study_uid None) = []
  /\ fst (find_nm_series Rejected study_uid None) = [].
Proof.
  split; [|split; [|split; reflexivity]].
  - intros limit Hpos. rewrite find_nm_series_result. cbn [items].
    rewrite series_loop_limited by (simpl; lia). reflexivity.
  - rewrite find_nm_series_result. cbn [items].
    now rewrite series_loop_unlimited.
Qed.

(** The iteration raises after two series: both are returned, and one
    of them under a limit of one. *)
Example series_partial_results :
  let raised := Established
    {| items := [(Some 0xFF00, Some (Samples.series "1.2.1" "1"));
                 (Some 0xFF00, Some (Samples.series "1.2.1" "2"))];
       stream_end := Raises |} in
  fst (find_nm_series raised "1.2.1" None)
  = [Samples.series "1.2.1" "1"; Samples.series "1.2.1" "2"]
  /\ fst (find_nm_series raised "1.2.1" (Some 1)) = [Samples.series "1.2.1" "1"].
Proof. split; reflexivity. Qed.

(** Under a negative limit the loop leaves at its first match. *)
Lemma filter_nm_negative (limit : Z) (all_studies nm_studies : list Dataset) :
  limit < 0 ->
  filter_nm (Some limit) all_studies nm_studies = nm_studies
  \/ exists study, filter_nm (Some limit) all_studies nm_studies
                   = nm_studies ++ [study].
Proof.
  intros Hneg. revert nm_studies.
  induction all_studies as [|study rest IH]; intros nm_studies; simpl; [now left|].
  destruct (has_nm study); [|apply IH].
  unfold limit_reached.
  replace (limit =? 0) with false by (symmetry; apply Z.eqb_neq; lia).
  replace (limit <=? Z.of_nat (List.length (nm_studies ++ [study]))) with true
    by (symmetry; apply Z.leb_le; lia).
  right. now exists study.
Qed.

(** A negative study limit returns no study at all: the loop stops at
    the first match and the slice [nm_studies[:limit]] then drops it. *)
Theorem negative_study_limit_returns_nothing (now : Z) (p : peer find_response)
    (limit : Z) (study_date : option string) :
  limit < 0 ->
  fst (find_nm_studies now p (Some limit) study_date) = [].
Proof.
  intros Hneg. unfold find_nm_studies.
  destruct p as [| |responses]; try reflexivity.
  destruct (stream_end responses); [|reflexivity].
  destruct (collect (items responses) []) as [|d all]; [reflexivity|].
  cbn [fst]. unfold up_to_limit, slice_to.
  replace (limit =? 0) with false by (symmetry; apply Z.eqb_neq; lia).
  replace (0 <=? limit) with false by (symmetry; apply Z.leb_gt; lia).
  destruct (filter_nm_negative limit (d :: all) [] Hneg) as [-> | (study & ->)].
  - apply firstn_nil.
  - simpl app. simpl List.length.
    replace (Z.to_nat (Z.of_nat 1 + limit)) with O by lia. reflexivity.
Qed.

Lemma negative_study_limit_example :
  fst (find_nm_studies Samples.today
         (Established (Samples.matches [Samples.A; Samples.B])) (Some (-1)) None)
  = [].
Proof.
  apply negative_study_limit_returns_nothing. lia.
Defined.

Lemma filter_nm_zero (all_studies nm_studies : list Dataset) :
  filter_nm (Some 0) all_studies nm_studies = filter_nm None all_studies nm_studies.
Proof.
  revert nm_studies.
  induction all_studies as [|study rest IH]; intros nm_studies; simpl; [reflexivity|].
  destruct (has_nm study); apply IH.
Qed.

Lemma series_loop_zero (responses : list find_response) (series : list Dataset) :
  series_loop (Some 0) responses series = series_loop None responses series.
Proof.
  revert series.
  induction responses as [|[status identifier] rest IH]; intros series; simpl;
    [reflexivity|].
  destruct (pending status); [destruct identifier|]; apply IH.
Qed.

Lemma find_nm_studies_zero (now : Z) (p : peer find_response)
    (study_date : option string) :
  find_nm_studies now p (Some 0) study_date = find_nm_studies now p None study_date.
Proof.
  unfold find_nm_studies. destruct p as [| |responses]; try reflexivity.
  now rewrite filter_nm_zero.
Qed.

Lemma last_30_days_not_empty (now : Z) :
  String.eqb (Calendar.last_30_days now) EmptyString = false.
Proof.
  unfold Calendar.last_30_days. apply StringFacts.eqb_append_nonempty.
  discriminate.
Qed.

Lemma query_date_not_empty (now : Z) (study_date : option string) :
  query_date now study_date <> EmptyString.
Proof.
  unfold query_date. intros H.
  destruct study_date as [d|].
  - destruct (String.eqb d EmptyString) eqn:E.
    + apply String.eqb_eq in H. rewrite last_30_days_not_empty in H. discriminate.
    + apply String.eqb_neq in E. contradiction.
  - apply String.eqb_eq in H. rewrite last_30_days_not_empty in H. discriminate.
Qed.

(** The only C-FIND of [find_nm_studies] is at study level and carries
    the completed date. *)
Lemma find_nm_studies_query (now : Z) (p : peer find_response)
    (limit : option Z) (study_date : option string) (lvl : level) (key : string) :
  In (EvCFind lvl key) (snd (find_nm_studies now p limit study_date)) ->
  lvl = STUDY /\ key = query_date now study_date.
Proof.
  intros H. unfold find_nm_studies in H. destruct p as [| |responses]; simpl in H.
  - destruct H as [H | [H | []]]; discriminate.
  - destruct H as [H | [H | []]]; discriminate.
  - destruct (stream_end responses).
    + destruct (collect (items responses) []); simpl in H;
        destruct H as [H | [H | [H | [H | [H | []]]]]];
        try discriminate; injection H as <- <-; auto.
    + simpl in H. destruct H as [H | [H | [H | []]]];
        try discriminate; injection H as <- <-; auto.
Qed.

(** The study query never goes out with an empty [StudyDate]: a date
    that is absent or empty is replaced by the 30-day window, any
    other is sent as given. *)
Theorem study_query_always_dated (now : Z) (p : peer find_response)
    (limit : option Z) (study_date : option string) (lvl : level) (key : string) :
  In (EvCFind lvl key) (snd (find_nm_studies now p limit study_date)) ->
  lvl = STUDY
  /\ key <> EmptyString
  /\ (forall d, study_date = Some d -> d <> EmptyString -> key = d)
  /\ (truthy study_date = false -> key = Calendar.last_30_days now).
Proof.
  intros H. apply find_nm_studies_query in H as (-> & ->).
  split; [reflexivity|].
  split; [apply query_date_not_empty|]. split.
  - intros d -> Hd. unfold query_date.
    destruct (String.eqb d EmptyString) eqn:E; [|reflexivity].
    apply String.eqb_eq in E. contradiction.
  - unfold truthy, query_date. destruct study_date as [d|]; [|reflexivity].
    intros E. apply negb_false_iff in E. now rewrite E.
Qed.

(** With [--study-date ''] the query of 2021-09-30 still carries the
    window of the last 30 days. *)
Lemma study_query_dated_example :
  STUDY = STUDY
  /\ "20210831-20210930" <> EmptyString
  /\ (forall d, Some EmptyString = Some d -> d <> EmptyString ->
                "20210831-20210930" = d)
  /\ (truthy (Some EmptyString) = false ->
      "20210831-20210930" = Calendar.last_30_days Samples.today).
Proof.
  apply (study_query_always_dated Samples.today
           (Established (Samples.matches [Samples.A])) None (Some EmptyString)
           STUDY "20210831-20210930").
  simpl. auto.
Defined.

End FindCoverage.

(* ================================================================== *)
(** * Further properties of the transports *)
(* ================================================================== *)

Module TransportCoverage.

Import PyStr Retriever Observations AssociationFacts.
Local Open Scope Z_scope.

Lemma handle_store_events (cfg : config) (image_count : Z)
    (ds : StoredDataset) (io : store_io) :
  forall e, In e (snd (handle_store cfg image_count ds io)) ->
            of_the_move_loop e = true.
Proof.
  unfold handle_store.
  destruct (dry_run cfg), (mkdir_raises io), (save_raises io); simpl;
    intros e H; repeat (destruct H as [<- | H]; [reflexivity|]); contradiction.
Qed.

Lemma move_loop_events (cfg : config) (responses : list move_item)
    (image_count : Z) :
  forall e, In e (snd (move_loop cfg image_count responses)) ->
            of_the_move_loop e = true.
Proof.
  revert image_count.
  induction responses as [|[ds io|status] rest IH]; intros image_count e; simpl.
  - contradiction.
  - pose proof (handle_store_events cfg image_count ds io) as Hs.
    destruct (handle_store cfg image_count ds io) as [[c h] stored].
    specialize (IH c). destruct (move_loop cfg c rest) as [c' trace].
    cbn [snd] in *. intros H. apply in_app_iff in H as [H | H]; auto.
  - specialize (IH image_count).
    destruct (move_loop cfg image_count rest) as [c trace]. cbn [snd] in IH.
    destruct status as [s|]; [destruct (move_warning s)|]; cbn [snd]; auto.
    intros [<- | H]; [reflexivity | auto].
Qed.

(** A test that is blind to the events of the move loop counts none in
    its trace. *)
Lemma move_loop_count (p : event -> bool) (cfg : config)
    (responses : list move_item) (image_count : Z) :
  (forall e, of_the_move_loop e = true -> p e = false) ->
  count p (snd (move_loop cfg image_count responses)) = O.
Proof.
  intros Hp. apply count_none. intros e He.
  apply Hp. now apply (move_loop_events cfg responses image_count).
Qed.

Lemma blind_shutdown (e : event) : of_the_move_loop e = true -> is_shutdown e = false.
Proof. destruct e as [| | | | | | | | | | |l]; try reflexivity; discriminate. Qed.

Lemma blind_tool_run (e : event) : of_the_move_loop e = true -> is_tool_run e = false.
Proof. destruct e as [| | | | | | | | | | |l]; try reflexivity; discriminate. Qed.

Lemma blind_image_limit (e : event) :
  of_the_move_loop e = true -> is_image_limit e = false.
Proof.
  destruct e as [| | | | | | | | | | |l]; try reflexivity; try discriminate.
  destruct l; try reflexivity; discriminate.
Qed.

Lemma blind_series_find (e : event) :
  of_the_move_loop e = true -> is_series_find e = false.
Proof. destruct e as [| |lvl key| | | | | | | | |l]; try reflexivity; discriminate. Qed.

(** The listener is started once; once started it is shut down once,
    as the last thing the call does, whether the move completed, was
    refused, or raised. A listener that did not start is not shut
    down. *)
Theorem listener_always_stopped (cfg : config) (image_count : Z)
    (l : listener) (ds : RetrieveQuery) :
  let trace := snd (_retrieve_with_move cfg image_count l ds) in
  count is_server_start trace = 1%nat
  /\ count is_shutdown trace = (if listener_started l then 1%nat else 0%nat)
  /\ (listener_started l = true ->
      exists before, trace = before ++ [EvShutdown]).
Proof.
  cbv zeta. split; [apply MoveFacts.retrieve_with_move_one_server|].
  unfold _retrieve_with_move.
  destruct l as [| |[| |responses]]; try (split; [reflexivity | discriminate]).
  - split; [reflexivity|]. intros _.
    now exists [EvStartServer (local_port cfg); EvAssociateRaised; EvLog LogMoveError].
  - split; [reflexivity|]. intros _.
    now exists [EvStartServer (local_port cfg); EvAssociate false;
                EvLog LogMoveAssociateFailed].
  - pose proof (move_loop_count is_shutdown cfg (items responses) image_count
                  blind_shutdown) as Hs.
    destruct (move_loop cfg image_count (items responses)) as [c trace].
    cbn [snd] in Hs.
    destruct (stream_end responses); cbn [snd listener_started].
    + split; [rewrite !count_app, Hs; reflexivity|]. intros _.
      exists ([EvStartServer (local_port cfg); EvAssociate true; EvCMove ds]
              ++ trace ++ [EvRelease]).
      now rewrite <- !app_assoc.
    + split; [rewrite !count_app, Hs; reflexivity|]. intros _.
      exists ([EvStartServer (local_port cfg); EvAssociate true; EvCMove ds]
              ++ trace ++ [EvLog LogMoveError]).
      now rewrite <- !app_assoc.
Qed.

(** The move raises after one object came in: the listener is shut
    down all the same. *)
Example listener_stopped_after_raise :
  let ds := {| stored_PatientID := Some "P1"; stored_StudyInstanceUID := Some "1.2.1";
               stored_SeriesInstanceUID := Some "1"; stored_SOPInstanceUID := Some "7" |} in
  let l := ServerUp (Established
             {| items := [Incoming ds {| mkdir_raises := false; save_raises := false |}];
                stream_end := Raises |}) in
  let q := {| QueryRetrieveLevel := SERIES; query_StudyInstanceUID := "1.2.1";
              query_SeriesInstanceUID := Some "1" |} in
  fst (fst (_retrieve_with_move (Samples.cfg false false) 0 l q)) = false
  /\ count is_shutdown (snd (_retrieve_with_move (Samples.cfg false false) 0 l q))
     = 1%nat.
Proof. split; reflexivity. Qed.

Lemma retrieve_with_move_result (cfg : config) (image_count : Z)
    (l : listener) (ds : RetrieveQuery) :
  fst (fst (_retrieve_with_move cfg image_count l ds)) = move_completes l.
Proof.
  unfold _retrieve_with_move, move_completes.
  destruct l as [| |[| |responses]]; try reflexivity.
  destruct (move_loop cfg image_count (items responses)).
  now destruct (stream_end responses).
Qed.

Lemma retrieve_with_get_result (cfg : config) (image_count : Z)
    (run : tool_run) (ds : RetrieveQuery) :
  fst (fst (_retrieve_with_get cfg image_count run ds)) = tool_succeeds run.
Proof.
  unfold _retrieve_with_get.
  destruct run as [| | |returncode stdout stderr listing]; try reflexivity.
  simpl. destruct (returncode =? 0); [|reflexivity].
  now destruct (0 <? parse_completed stdout).
Qed.

Lemma retrieve_with_get_tool_runs (cfg : config) (image_count : Z)
    (run : tool_run) (ds : RetrieveQuery) :
  count is_tool_run (snd (_retrieve_with_get cfg image_count run ds))
  = (if tool_launched run then 1%nat else 0%nat).
Proof.
  unfold _retrieve_with_get.
  destruct run as [| | |returncode stdout stderr listing]; try reflexivity.
  destruct (returncode =? 0); [|reflexivity].
  destruct (0 <? parse_completed stdout);
    destruct (0 <? FileSink.renamed_count listing)%nat;
    cbn [snd]; rewrite !count_app; reflexivity.
Qed.

Lemma retrieve_with_get_writes (cfg : config) (image_count : Z)
    (run : tool_run) (ds : RetrieveQuery) :
  count is_fs_write (snd (_retrieve_with_get cfg image_count run ds))
  = (if tool_succeeds run then 1%nat else 0%nat).
Proof.
  unfold _retrieve_with_get.
  destruct run as [| | |returncode stdout stderr listing]; try reflexivity.
  simpl tool_succeeds. destruct (returncode =? 0); [|reflexivity].
  destruct (0 <? parse_completed stdout);
    destruct (0 <? FileSink.renamed_count listing)%nat;
    cbn [snd]; rewrite !count_app; reflexivity.
Qed.

Lemma retrieve_with_get_counter (cfg : config) (image_count : Z)
    (run : tool_run) (ds : RetrieveQuery) :
  image_count <= snd (fst (_retrieve_with_get cfg image_count run ds))
  /\ (tool_succeeds run = false ->
      snd (fst (_retrieve_with_get cfg image_count run ds)) = image_count).
Proof.
  unfold _retrieve_with_get.
  destruct run as [| | |returncode stdout stderr listing]; simpl;
    try (split; [lia | reflexivity]).
  destruct (returncode =? 0); [|split; [simpl; lia | reflexivity]].
  destruct (0 <? parse_completed stdout) eqn:E; cbn [fst snd].
  - apply Z.ltb_lt in E. split; [lia | discriminate].
  - split; [lia | discriminate].
Qed.

(** One call of the external-tool transport: it reports success
    exactly when [getscu] was found and exited with 0; the tool is run
    once unless it is missing; the rename pass over the output
    directory runs after a success only; and a call that fails leaves
    the image counter as it was. *)
Theorem getscu_call_outcomes (cfg : config) (image_count : Z)
    (run : tool_run) (ds : RetrieveQuery) :
  let call := _retrieve_with_get cfg image_count run ds in
  fst (fst call) = tool_succeeds run
  /\ count is_tool_run (snd call) = (if tool_launched run then 1%nat else 0%nat)
  /\ count is_fs_write (snd call) = (if tool_succeeds run then 1%nat else 0%nat)
  /\ image_count <= snd (fst call)
  /\ (tool_succeeds run = false -> snd (fst call) = image_count).
Proof.
  cbv zeta.
  split; [apply retrieve_with_get_result|].
  split; [apply retrieve_with_get_tool_runs|].
  split; [apply retrieve_with_get_writes|].
  apply retrieve_with_get_counter.
Qed.

End TransportCoverage.

(* ================================================================== *)
(** * Further properties of a study and of the run *)
(* ================================================================== *)

Module RunCoverage.

Import PyStr Retriever Observations AssociationFacts TransportCoverage.
Local Open Scope Z_scope.

Lemma incoming_count_nonneg (responses : list move_item) :
  0 <= incoming_count responses.
Proof.
  induction responses as [|[ds io|status] rest IH]; cbn [incoming_count]; lia.
Qed.

Lemma retrieve_with_move_counter (cfg : config) (image_count : Z)
    (l : listener) (ds : RetrieveQuery) :
  image_count <= snd (fst (_retrieve_with_move cfg image_count l ds)).
Proof.
  unfold _retrieve_with_move.
  destruct l as [| |[| |responses]]; cbn [fst snd]; try lia.
  pose proof (MoveFacts.move_loop_counter cfg (items responses) image_count) as Hc.
  pose proof (incoming_count_nonneg (items responses)) as Hn.
  destruct (move_loop cfg image_count (items responses)) as [c trace].
  cbn [fst] in Hc. destruct (stream_end responses); cbn [fst snd]; lia.
Qed.

Lemma retrieve_series_result (cfg : config) (w : world) (image_count : Z)
    (study_uid : string) (series : Dataset) :
  fst (fst (retrieve_series cfg w image_count study_uid series))
  = series_succeeds cfg w study_uid series
  /\ image_count <= snd (fst (retrieve_series cfg w image_count study_uid series)).
Proof.
  unfold retrieve_series, series_succeeds. destruct (use_c_get cfg).
  - split; [apply retrieve_with_get_result | apply retrieve_with_get_counter].
  - split; [apply retrieve_with_move_result | apply retrieve_with_move_counter].
Qed.

Lemma retrieve_series_attempts (cfg : config) (w : world) (image_count : Z)
    (study_uid : string) (series : Dataset) :
  let trace := snd (retrieve_series cfg w image_count study_uid series) in
  (use_c_get cfg = true ->
   count is_tool_run trace
   = if tool_launched (getscu w study_uid (SeriesInstanceUID series))
     then 1%nat else 0%nat)
  /\ (use_c_get cfg = false -> count is_server_start trace = 1%nat).
Proof.
  cbv zeta. unfold retrieve_series. split; intros ->.
  - apply retrieve_with_get_tool_runs.
  - apply MoveFacts.retrieve_with_move_one_server.
Qed.

(** The loop over the series: [success] stays true exactly when every
    series succeeded, and every series is attempted. *)
Lemma series_retrieval_result (cfg : config) (w : world) (study_uid : string)
    (nm_series : list Dataset) (image_count : Z) (success : bool) :
  let r := series_retrieval cfg w image_count study_uid nm_series success in
  fst (fst r) = success && forallb (series_succeeds cfg w study_uid) nm_series
  /\ image_count <= snd (fst r)
  /\ (use_c_get cfg = true ->
      count is_tool_run (snd r)
      = List.length
          (filter (fun s => tool_launched (getscu w study_uid (SeriesInstanceUID s)))
                  nm_series))
  /\ (use_c_get cfg = false ->
      count is_server_start (snd r) = List.length nm_series).
Proof.
  cbv zeta. revert image_count success.
  induction nm_series as [|series rest IH]; intros image_count success; simpl.
  - rewrite andb_true_r. repeat split; first [reflexivity | lia].
  - destruct (retrieve_series_result cfg w image_count study_uid series)
      as (Hok & Hge).
    destruct (retrieve_series_attempts cfg w image_count study_uid series)
      as (Hget & Hmove).
    destruct (retrieve_series cfg w image_count study_uid series)
      as [[ok c] trace].
    cbn [fst snd] in Hok, Hge, Hget, Hmove. subst ok.
    destruct (IH c (if series_succeeds cfg w study_uid series
                    then success else false)) as (IHok & IHge & IHget & IHmove).
    destruct (series_retrieval cfg w c study_uid rest _) as [[ok' c'] trace'].
    cbn [fst snd] in *. split; [|split; [lia|split]].
    + rewrite IHok. now destruct (series_succeeds cfg w study_uid series), success.
    + intros Hg. rewrite count_app, (Hget Hg), (IHget Hg).
      now destruct (tool_launched (getscu w study_uid (SeriesInstanceUID series))).
    + intros Hm. rewrite count_app, (Hmove Hm), (IHmove Hm). reflexivity.
Qed.

Lemma find_nm_series_effects (p : peer find_response) (study_uid : string)
    (limit : option Z) :
  let trace := snd (find_nm_series p study_uid limit) in
  count is_tool_run trace = O
  /\ count is_server_start trace = O
  /\ count is_transport trace = O
  /\ count is_fs_write trace = O.
Proof.
  cbv zeta. destruct p as [| |responses]; try (repeat split; reflexivity).
  rewrite find_nm_series_trace.
  destruct (snd (series_loop limit (items responses) []));
    [|destruct (stream_end responses)]; repeat split; reflexivity.
Qed.

(** Outside dry run, [retrieve_study] reports success exactly when the
    series find returned at least one series and the transport
    succeeded on every one of them; a series that fails does not keep
    the later ones from being tried. When no series is found (the find
    is refused, raises, or has no pending answer) the study is reported
    failed without any transport call, write, or change of the
    counter. *)
Theorem retrieve_study_succeeds_iff_all_series (cfg : config) (w : world)
    (image_count : Z) (study_uid : string) :
  dry_run cfg = false ->
  let nm_series := fst (find_nm_series (series_peer w study_uid) study_uid None) in
  let r := retrieve_study cfg w image_count study_uid in
  fst (fst r)
  = match nm_series with
    | [] => false
    | _ :: _ => forallb (series_succeeds cfg w study_uid) nm_series
    end
  /\ (use_c_get cfg = true ->
      count is_tool_run (snd r)
      = List.length
          (filter (fun s => tool_launched (getscu w study_uid (SeriesInstanceUID s)))
                  nm_series))
  /\ (use_c_get cfg = false ->
      count is_server_start (snd r) = List.length nm_series)
  /\ (nm_series = [] ->
      snd (fst r) = image_count
      /\ count is_transport (snd r) = O
      /\ count is_fs_write (snd r) = O).
Proof.
  intros Hdry. cbv zeta. unfold retrieve_study. rewrite Hdry.
  destruct (find_nm_series_effects (series_peer w study_uid) study_uid None)
    as (Ht & Hs & Htr & Hw).
  destruct (find_nm_series (series_peer w study_uid) study_uid None)
    as [nm_series found].
  cbn [fst snd] in *. destruct nm_series as [|series rest].
  - cbn [fst snd]. rewrite !count_app, Ht, Hs, Htr, Hw.
    repeat split; reflexivity.
  - destruct (series_retrieval_result cfg w study_uid (series :: rest)
                image_count true) as (Hok & _ & Hget & Hmove).
    destruct (series_retrieval cfg w image_count study_uid (series :: rest) true)
      as [[ok c] trace].
    cbn [fst snd] in *. split; [exact Hok|]. split; [|split].
    + intros Hg. rewrite count_app, Ht, (Hget Hg). reflexivity.
    + intros Hm. rewrite count_app, Hs, (Hmove Hm). reflexivity.
    + discriminate.
Qed.

(** Two series; [getscu] fails on the first (exit code 1) and succeeds
    on the second: the study is reported failed and both were tried. *)
Lemma retrieve_study_example :
  let w := {| now := Samples.today;
              study_peer := Rejected;
              series_peer := fun study_uid =>
                Established (Samples.matches [Samples.series study_uid "1";
                                              Samples.series study_uid "2"]);
              move_listener := fun _ _ => ServerNone;
              getscu := fun _ series_uid =>
                if String.eqb series_uid "1"
                then ToolExit 1 "" "E: failed" (FileSink.Dir [] [])
                else ToolExit 0 "" "" (FileSink.Dir [] []) |} in
  let r := retrieve_study (Samples.cfg false true) w 0 "1.2.1" in
  fst (fst r) = false /\ count is_tool_run (snd r) = 2%nat.
Proof.
  cbv zeta.
  destruct (retrieve_study_succeeds_iff_all_series (Samples.cfg false true)
              {| now := Samples.today;
                 study_peer := Rejected;
                 series_peer := fun study_uid =>
                   Established (Samples.matches [Samples.series study_uid "1";
                                                 Samples.series study_uid "2"]);
                 move_listener := fun _ _ => ServerNone;
                 getscu := fun _ series_uid =>
                   if String.eqb series_uid "1"
                   then ToolExit 1 "" "E: failed" (FileSink.Dir [] [])
                   else ToolExit 0 "" "" (FileSink.Dir [] []) |}
              0 "1.2.1" eq_refl) as (Hok & Hruns & _).
  split; [exact Hok | exact (Hruns eq_refl)].
Defined.

Lemma retrieve_with_move_quiet (cfg : config) (image_count : Z)
    (l : listener) (ds : RetrieveQuery) :
  count is_image_limit (snd (_retrieve_with_move cfg image_count l ds)) = O.
Proof.
  unfold _retrieve_with_move. destruct l as [| |[| |responses]]; try reflexivity.
  pose proof (move_loop_count is_image_limit cfg (items responses) image_count
                blind_image_limit) as Hq.
  destruct (move_loop cfg image_count (items responses)) as [c trace].
  cbn [snd] in Hq.
  destruct (stream_end responses); cbn [snd]; rewrite !count_app, Hq; reflexivity.
Qed.

Lemma series_retrieval_quiet (cfg : config) (w : world) (study_uid : string)
    (nm_series : list Dataset) (image_count : Z) (success : bool) :
  count is_image_limit
    (snd (series_retrieval cfg w image_count study_uid nm_series success)) = O.
Proof.
  revert image_count success.
  induction nm_series as [|series rest IH]; intros image_count success; simpl.
  - reflexivity.
  - assert (Hq : count is_image_limit
                   (snd (retrieve_series cfg w image_count study_uid series)) = O).
    { unfold retrieve_series. destruct (use_c_get cfg).
      - apply ToolFacts.retrieve_with_get_quiet.
      - apply retrieve_with_move_quiet. }
    destruct (retrieve_series cfg w image_count study_uid series)
      as [[ok c] trace].
    specialize (IH c (if ok then success else false)).
    destruct (series_retrieval cfg w c study_uid rest _) as [[ok' c'] trace'].
    cbn [snd] in *. rewrite count_app. lia.
Qed.

(** One study: the counter does not go down and the image limit is not
    looked at. *)
Lemma retrieve_study_frame (cfg : config) (w : world) (image_count : Z)
    (study_uid : string) :
  image_count <= snd (fst (retrieve_study cfg w image_count study_uid))
  /\ count is_image_limit (snd (retrieve_study cfg w image_count study_uid)) = O.
Proof.
  unfold retrieve_study. destruct (dry_run cfg); [split; [cbn; lia | reflexivity]|].
  pose proof (ToolFacts.find_nm_series_quiet (series_peer w study_uid)
                study_uid None) as Hq.
  destruct (find_nm_series (series_peer w study_uid) study_uid None)
    as [nm_series found].
  cbn [snd] in Hq. destruct nm_series as [|series rest].
  - cbn [fst snd]. rewrite count_app, Hq. split; [lia | reflexivity].
  - destruct (series_retrieval_result cfg w study_uid (series :: rest)
                image_count true) as (_ & Hge & _).
    pose proof (series_retrieval_quiet cfg w study_uid (series :: rest)
                  image_count true) as Hs.
    destruct (series_retrieval cfg w image_count study_uid (series :: rest) true)
      as [[ok c] trace].
    cbn [fst snd] in *. rewrite count_app. split; lia.
Qed.

Lemma study_loop_frame (cfg : config) (w : world) (max_images : option Z)
    (studies : list Dataset) (image_count : Z) :
  let r := study_loop cfg w max_images image_count studies in
  image_count <= fst r
  /\ (count is_image_limit (snd r) <= 1)%nat
  /\ (count is_image_limit (snd r) = 1%nat ->
      image_limit_reached max_images (fst r) = true)
  /\ (count is_image_limit (snd r) = O -> studies <> [] ->
      image_limit_reached max_images (fst r) = false).
Proof.
  cbv zeta. revert image_count.
  induction studies as [|study rest IH]; intros image_count; simpl.
  - cbn. repeat split; intros; first [lia | discriminate | congruence].
  - destruct (retrieve_study_frame cfg w image_count (StudyInstanceUID study))
      as (Hge & Hq).
    destruct (retrieve_study cfg w image_count (StudyInstanceUID study))
      as [[ok c] trace].
    cbn [fst snd] in Hge, Hq.
    destruct (image_limit_reached max_images c) eqn:Hlimit.
    + cbn [fst snd]. rewrite count_app, Hq. cbn.
      repeat split; intros; first [lia | exact Hlimit | discriminate].
    + destruct (IH c) as (IHge & IHle & IHone & IHzero).
      destruct (study_loop cfg w max_images c rest) as [c' trace'] eqn:Hrest.
      cbn [fst snd] in *. rewrite count_app, Hq. cbn [Nat.add].
      split; [lia|]. split; [exact IHle|]. split; [exact IHone|].
      intros Hz _. destruct rest as [|next rest'].
      * simpl in Hrest. injection Hrest as <- _. exact Hlimit.
      * apply IHzero; [exact Hz | discriminate].
Qed.

Lemma image_limit_reached_spec (max_images : option Z) (image_count : Z) :
  image_limit_reached max_images image_count = true
  <-> exists m, max_images = Some m /\ m <> 0 /\ m <= image_count.
Proof.
  unfold image_limit_reached. destruct max_images as [m|]; split.
  - intros H. apply andb_true_iff in H as (Hn & Hle).
    apply negb_true_iff, Z.eqb_neq in Hn. apply Z.leb_le in Hle. now exists m.
  - intros (m' & [= <-] & Hn & Hle). apply andb_true_iff. split.
    + now apply negb_true_iff, Z.eqb_neq.
    + now apply Z.leb_le.
  - discriminate.
  - intros (m & H & _). discriminate.
Qed.

(** The image counter never goes down over a run, whatever the
    transport, the limits and the answers of the archive. *)
Theorem image_counter_never_decreases (cfg : config) (w : world)
    (max_studies max_images : option Z) (image_count : Z) :
  image_count <= fst (retrieve_images cfg w max_studies max_images image_count).
Proof.
  unfold retrieve_images.
  destruct (find_nm_studies (now w) (study_peer w) max_studies (study_date cfg))
    as [studies found].
  destruct studies as [|study rest]; [cbn; lia|].
  destruct (study_loop_frame cfg w max_images (study :: rest) image_count)
    as (Hge & _).
  destruct (study_loop cfg w max_images image_count (study :: rest)) as [c trace].
  exact Hge.
Qed.

(** The image limit is looked at after a study, never inside one: the
    run logs that it is reached at most once, and then the counter is
    at or above a non-zero limit; a run over some studies that does not
    log it ends below the limit. *)
Theorem image_limit_checked_between_studies (cfg : config) (w : world)
    (max_studies max_images : option Z) (image_count : Z) :
  let r := retrieve_images cfg w max_studies max_images image_count in
  (count is_image_limit (snd r) <= 1)%nat
  /\ (count is_image_limit (snd r) = 1%nat ->
      exists m, max_images = Some m /\ m <> 0 /\ m <= fst r)
  /\ (count is_image_limit (snd r) = O ->
      fst (find_nm_studies (now w) (study_peer w) max_studies (study_date cfg))
      <> [] ->
      forall m, max_images = Some m -> m <> 0 -> fst r < m).
Proof.
  cbv zeta. unfold retrieve_images.
  pose proof (ToolFacts.find_nm_studies_quiet (now w) (study_peer w) max_studies
                (study_date cfg)) as Hq.
  destruct (find_nm_studies (now w) (study_peer w) max_studies (study_date cfg))
    as [studies found].
  cbn [fst snd] in *. destruct studies as [|study rest].
  - cbn [fst snd]. rewrite count_app, Hq. cbn.
    repeat split; intros; first [lia | discriminate | congruence].
  - destruct (study_loop_frame cfg w max_images (study :: rest) image_count)
      as (_ & Hle & Hone & Hzero).
    destruct (study_loop cfg w max_images image_count (study :: rest))
      as [c trace].
    cbn [fst snd] in *.
    assert (Hcount : count is_image_limit
              (found
               ++ (if 0 <? total_images (study :: rest)
                   then [EvLog (LogEstimatedTotal (total_images (study :: rest)))]
                   else [])
               ++ trace
               ++ [EvLog (if dry_run cfg then LogDryRunSummary c
                          else LogRetrievalComplete c)])
            = count is_image_limit trace).
    { rewrite !count_app, Hq.
      destruct (0 <? total_images (study :: rest)), (dry_run cfg); cbn; lia. }
    rewrite Hcount. split; [exact Hle|]. split.
    + intros H. now apply image_limit_reached_spec, Hone.
    + intros H _ m Hm Hne.
      specialize (Hzero H ltac:(discriminate)).
      destruct (Z.lt_ge_cases c m) as [Hlt | Hge]; [exact Hlt|].
      assert (Hr : image_limit_reached max_images c = true)
        by (apply image_limit_reached_spec; now exists m).
      rewrite Hr in Hzero. discriminate.
Qed.

(** A limit of one image and a first study that brings twelve: the
    counter overshoots to 12, the limit is logged once and the second
    study is not fetched. *)
Example image_limit_overshoot :
  let w := {| now := Samples.today;
              study_peer := Established (Samples.matches [Samples.A; Samples.B]);
              series_peer := fun study_uid =>
                Established (Samples.matches [Samples.series study_uid "1"]);
              move_listener := fun _ _ => ServerNone;
              getscu := fun _ _ =>
                ToolExit 0 "Completed Suboperations: 12" "" (FileSink.Dir [] []) |} in
  let r := retrieve_images (Samples.cfg false true) w None (Some 1) 0 in
  fst r = 12
  /\ count is_image_limit (snd r) = 1%nat
  /\ count is_tool_run (snd r) = 1%nat.
Proof. repeat split; reflexivity. Qed.

Lemma study_loop_zero (cfg : config) (w : world) (studies : list Dataset)
    (image_count : Z) :
  study_loop cfg w (Some 0) image_count studies
  = study_loop cfg w None image_count studies.
Proof.
  revert image_count.
  induction studies as [|study rest IH]; intros image_count; simpl; [reflexivity|].
  destruct (retrieve_study cfg w image_count (StudyInstanceUID study))
    as [[ok c] trace].
  now rewrite IH.
Qed.

(** A limit of 0 is no limit: with [max_studies = 0] or
    [max_images = 0] the run is the one without that limit, event for
    event, and so is a series find with [limit = 0]. *)
Theorem zero_limit_is_no_limit (cfg : config) (w : world)
    (max_studies max_images : option Z) (image_count : Z)
    (p : peer find_response) (study_uid : string) :
  retrieve_images cfg w (Some 0) max_images image_count
  = retrieve_images cfg w None max_images image_count
  /\ retrieve_images cfg w max_studies (Some 0) image_count
     = retrieve_images cfg w max_studies None image_count
  /\ find_nm_series p study_uid (Some 0) = find_nm_series p study_uid None.
Proof.
  split; [|split].
  - unfold retrieve_images. now rewrite FindCoverage.find_nm_studies_zero.
  - unfold retrieve_images.
    destruct (find_nm_studies (now w) (study_peer w) max_studies (study_date cfg))
      as [studies found].
    destruct studies as [|study rest]; [reflexivity|].
    now rewrite study_loop_zero.
  - unfold find_nm_series. destruct p as [| |responses]; try reflexivity.
    now rewrite FindCoverage.series_loop_zero.
Qed.

Lemma find_fails_empty (now : Z) (p : peer find_response) (limit : option Z)
    (study_date : option string) :
  find_completes p = false ->
  fst (find_nm_studies now p limit study_date) = [].
Proof.
  unfold find_completes, find_nm_studies.
  destruct p as [| |responses]; try reflexivity.
  destruct (stream_end responses); [discriminate | reflexivity].
Qed.

(** When the study find returns nothing the run ends there: it logs
    that no NM study was found and neither looks for series, nor calls
    a transport, nor writes, nor touches the counter. That is the case
    whenever the association is refused or raises, or the iteration
    over the responses raises, even after studies had come in. *)
Theorem run_ends_when_nothing_found (cfg : config) (w : world)
    (max_studies max_images : option Z) (image_count : Z) :
  let r := retrieve_images cfg w max_studies max_images image_count in
  (find_completes (study_peer w) = false ->
   fst (find_nm_studies (now w) (study_peer w) max_studies (study_date cfg)) = [])
  /\ (fst (find_nm_studies (now w) (study_peer w) max_studies (study_date cfg)) = [] ->
      fst r = image_count
      /\ count is_no_nm_studies (snd r) = 1%nat
      /\ count is_series_find (snd r) = O
      /\ count is_transport (snd r) = O
      /\ count is_fs_write (snd r) = O).
Proof.
  cbv zeta. split; [apply find_fails_empty|].
  unfold retrieve_images.
  destruct (DryRunFacts.find_nm_studies_effects (now w) (study_peer w)
              max_studies (study_date cfg)) as (Hw & Ht & Hs & _).
  assert (Hn : count is_no_nm_studies
                 (snd (find_nm_studies (now w) (study_peer w) max_studies
                         (study_date cfg))) = O).
  { unfold find_nm_studies. destruct (study_peer w) as [| |responses];
      try reflexivity.
    destruct (stream_end responses); [|reflexivity].
    destruct (collect (items responses) []); cbn [snd];
      rewrite count_app; reflexivity. }
  destruct (find_nm_studies (now w) (study_peer w) max_studies (study_date cfg))
    as [studies found].
  cbn [fst snd] in *. intros ->. cbn [fst snd].
  rewrite !count_app, Hw, Ht, Hs, Hn. repeat split; reflexivity.
Qed.

Lemma retrieve_images_dry (cfg : config) (w : world)
    (max_studies max_images : option Z) (image_count : Z) :
  dry_run cfg = true ->
  fst (retrieve_images cfg w max_studies max_images image_count) = image_count
  /\ count is_series_find
       (snd (retrieve_images cfg w max_studies max_images image_count)) = O
  /\ count is_transport
       (snd (retrieve_images cfg w max_studies max_images image_count)) = O
  /\ count is_fs_write
       (snd (retrieve_images cfg w max_studies max_images image_count)) = O.
Proof.
  intros Hdry. unfold retrieve_images.
  destruct (DryRunFacts.find_nm_studies_effects (now w) (study_peer w)
              max_studies (study_date cfg)) as (Hw & Ht & Hs & _).
  destruct (find_nm_studies (now w) (study_peer w) max_studies (study_date cfg))
    as [studies found].
  cbn [fst snd] in *. destruct studies as [|study rest].
  - cbn [fst snd]. rewrite !count_app, Hw, Ht, Hs. repeat split; reflexivity.
  - assert (Hloop : forall p, (forall l, p (EvLog l) = false) ->
              count p (snd (study_loop cfg w max_images image_count (study :: rest)))
              = O)
      by (intros p Hp; now apply DryRunFacts.study_loop_dry).
    destruct (DryRunFacts.study_loop_dry cfg w max_images (study :: rest)
                image_count is_fs_write Hdry (fun _ => eq_refl)) as (Hc & _).
    destruct (study_loop cfg w max_images image_count (study :: rest))
      as [c trace].
    cbn [fst snd] in *. subst c. rewrite Hdry.
    split; [reflexivity|].
    rewrite !count_app, Hw, Ht, Hs.
    rewrite (Hloop is_series_find), (Hloop is_transport), (Hloop is_fs_write)
      by reflexivity.
    destruct (0 <? total_images (study :: rest)); repeat split; reflexivity.
Qed.

(** In a dry run the counter is left alone and nothing is fetched or
    written, whatever the find returns and whatever the studies
    declare. *)
Theorem dry_run_touches_nothing (cfg : config) (w : world)
    (max_studies max_images : option Z) (image_count : Z) :
  dry_run cfg = true ->
  let r := retrieve_images cfg w max_studies max_images image_count in
  fst r = image_count
  /\ count is_series_find (snd r) = O
  /\ count is_transport (snd r) = O
  /\ count is_fs_write (snd r) = O.
Proof.
  intros Hdry. cbv zeta.
  destruct (retrieve_images_dry cfg w max_studies max_images image_count Hdry)
    as (Hc & Hs & Ht & Hw).
  repeat split; assumption.
Qed.

(** A dry run over studies that declare no instance count. *)
Lemma dry_run_without_counts :
  let bare := {| StudyInstanceUID := "1.2.9"; SeriesInstanceUID := "";
                 ModalitiesInStudy := Some (VStr "NM");
                 NumberOfStudyRelatedInstances := None |} in
  let w := {| now := Samples.today;
              study_peer := Established (Samples.matches [bare]);
              series_peer := fun _ => Rejected;
              move_listener := fun _ _ => ServerNone;
              getscu := fun _ _ => ToolMissing |} in
  let r := retrieve_images (Samples.cfg true true) w None (Some 5) 0 in
  fst r = 0
  /\ count is_series_find (snd r) = O
  /\ count is_transport (snd r) = O
  /\ count is_fs_write (snd r) = O.
Proof.
  cbv zeta.
  apply (dry_run_touches_nothing (Samples.cfg true true)
           {| now := Samples.today;
              study_peer := Established (Samples.matches
                [{| StudyInstanceUID := "1.2.9"; SeriesInstanceUID := "";
                    ModalitiesInStudy := Some (VStr "NM");
                    NumberOfStudyRelatedInstances := None |}]);
              series_peer := fun _ => Rejected;
              move_listener := fun _ _ => ServerNone;
              getscu := fun _ _ => ToolMissing |}
           None (Some 5) 0 eq_refl).
Defined.

End RunCoverage.

(* ================================================================== *)
(** * Further properties of the file sink *)
(* ================================================================== *)

Module SinkCoverage.

Import PyStr FileSink Retriever Observations FileSinkFacts SanitizeFacts.

Lemma sanitize_fixes_clean (s : string) : segment_clean s = true -> sanitize s = s.
Proof.
  unfold segment_clean. induction s as [|c s IH]; simpl; [reflexivity|].
  intros H. apply andb_true_iff in H as (Hc & Hs). rewrite Hc. f_equal. auto.
Qed.

Lemma sanitize_shortens (s : string) :
  (String.length (sanitize s) <= String.length s)%nat.
Proof.
  induction s as [|c s IH]; simpl; [lia|]. destruct (keep c); simpl; lia.
Qed.

Lemma sanitize_rejects_all (s : string) :
  (forall c, In c (list_ascii_of_string s) -> keep c = false) ->
  sanitize s = EmptyString.
Proof.
  induction s as [|c s IH]; simpl; [reflexivity|]. intros H.
  rewrite (H c) by now left. apply IH. intros x Hx. apply H. now right.
Qed.

(** [sanitize] is a projection: applying it twice is applying it once,
    and it leaves alone exactly the texts that are already clean. It
    never lengthens, it keeps no slash, backslash or dot (so the
    patient segment can name neither a parent directory nor a
    sub-path), and a patient ID made of rejected characters only
    becomes the empty text. *)
Theorem sanitize_is_a_projection (s : string) :
  sanitize (sanitize s) = sanitize s
  /\ (sanitize s = s <-> segment_clean s = true)
  /\ (String.length (sanitize s) <= String.length s)%nat
  /\ (forall c, In c (list_ascii_of_string (sanitize s)) ->
                c <> "/"%char /\ c <> "\"%char /\ c <> "."%char)
  /\ ((forall c, In c (list_ascii_of_string s) -> keep c = false) ->
      sanitize s = EmptyString).
Proof.
  split; [apply sanitize_fixes_clean, sanitize_clean|].
  split; [split; [intros <-; apply sanitize_clean | apply sanitize_fixes_clean]|].
  split; [apply sanitize_shortens|].
  split; [|apply sanitize_rejects_all].
  intros c Hc. rewrite sanitize_filter in Hc. apply filter_In in Hc as (_ & Hk).
  repeat split; intros ->; discriminate.
Qed.

(** A patient ID that tries to climb out of the output directory. *)
Example sanitize_traversal :
  sanitize "../../etc" = "etc" /\ sanitize "?*/" = EmptyString.
Proof. split; reflexivity. Qed.

Lemma dir_paths_repair (d : dir) : dir_paths (repair d) = dir_paths d.
Proof.
  induction d as [files subdirs IH] using dir_induction. simpl.
  induction IH as [|e rest He _ IHrest]; simpl; [reflexivity|].
  now rewrite He, IHrest.
Qed.

Lemma filter_names (files : list (string * string)) :
  List.length (filter lacks_suffix (map fst files))
  = List.length (filter (fun e => lacks_suffix (fst e)) files).
Proof.
  induction files as [|e rest IH]; simpl; [reflexivity|].
  destruct (lacks_suffix (fst e)); simpl; now rewrite IH.
Qed.

Lemma pass_count_bound {A : Type} (subdirs : list (string * A))
    (names : list string) (files : list (string * string)) (n : nat) :
  (snd (fold_left (rename_step subdirs) names (files, n))
   <= n + List.length (filter lacks_suffix names))%nat.
Proof.
  revert files n. induction names as [|f rest IH]; intros files n; simpl; [lia|].
  unfold rename_step at 2, lacks_suffix at 1. cbn [fst snd].
  destruct (endswith f ".dcm"); simpl negb; cbv iota.
  - apply IH.
  - destruct (rename subdirs f (f ++ ".dcm") files) as [files'|].
    + specialize (IH files' (S n)). simpl. lia.
    + specialize (IH files n). simpl. lia.
Qed.

Lemma renamed_count_bound (d : dir) : (renamed_count d <= unsuffixed d)%nat.
Proof.
  induction d as [files subdirs IH] using dir_induction. simpl.
  pose proof (pass_count_bound subdirs (map fst files) files O) as Hb.
  rewrite filter_names in Hb. unfold rename_pass.
  assert (Hs : (list_sum (map (fun e => renamed_count (snd e)) subdirs)
                <= list_sum (map (fun e => unsuffixed (snd e)) subdirs))%nat).
  { clear Hb. induction IH as [|e rest He _ IHrest]; simpl in *; lia. }
  simpl in Hb. lia.
Qed.

Lemma renamed_count_repaired (d : dir) : renamed_count (repair d) = O.
Proof.
  induction d as [files subdirs IH] using dir_induction. simpl.
  rewrite (rename_pass_names _ subdirs)
    by (intros name; apply (has_name_map repair)).
  rewrite rename_pass_idempotent. cbn [snd]. rewrite map_map. cbn [snd].
  induction IH as [|e rest He _ IHrest]; simpl; [reflexivity|].
  now rewrite He, IHrest.
Qed.

(** The rename pass counts at most one rename per file that lacks the
    suffix, leaves every directory where it was, and counts none on a
    tree it has already passed over: a [getscu] call that finds the
    output directory repaired logs no rename. *)
Theorem rename_pass_counts (d : dir) (cfg : config) (image_count : Z)
    (stdout stderr : string) (ds : RetrieveQuery) :
  (renamed_count d <= unsuffixed d)%nat
  /\ dir_paths (repair d) = dir_paths d
  /\ renamed_count (repair d) = O
  /\ count is_renamed_log
       (snd (_retrieve_with_get cfg image_count
               (ToolExit 0 stdout stderr (repair d)) ds)) = O
  /\ In (EvRenamePass (repair d) (repair d))
        (snd (_retrieve_with_get cfg image_count
                (ToolExit 0 stdout stderr (repair d)) ds)).
Proof.
  split; [apply renamed_count_bound|].
  split; [apply dir_paths_repair|].
  split; [apply renamed_count_repaired|].
  unfold _retrieve_with_get. rewrite Z.eqb_refl.
  rewrite renamed_count_repaired, repair_idempotent. simpl app.
  destruct (0 <? parse_completed stdout)%Z; split; simpl; auto.
Qed.

(** What the pass leaves in a directory was there before, under its
    own name or under that name with the suffix, with its content. *)
Lemma pass_provenance {A : Type} (subdirs : list (string * A))
    (original : list (string * string)) (names : list string)
    (files : list (string * string)) (n : nat) :
  (forall e, In e files ->
     exists e0, In e0 original /\ snd e = snd e0
                /\ (fst e = fst e0 \/ fst e = with_suffix (fst e0))) ->
  forall e, In e (fst (fold_left (rename_step subdirs) names (files, n))) ->
    exists e0, In e0 original /\ snd e = snd e0
               /\ (fst e = fst e0 \/ fst e = with_suffix (fst e0)).
Proof.
  revert files n. induction names as [|f rest IH]; intros files n H; simpl.
  - exact H.
  - destruct (rename_step subdirs (files, n) f) as [files' n'] eqn:S.
    apply IH. revert S. unfold rename_step. cbn [fst snd].
    destruct (endswith f ".dcm") eqn:Hf; [now intros [= <- _]|].
    destruct (rename subdirs f (f ++ ".dcm") files) as [renamed|] eqn:R;
      [|now intros [= <- _]].
    intros [= <- _]. apply rename_Some in R; [|now apply suffix_differs].
    destruct R as (_ & _ & ->). intros e He.
    apply in_map_iff in He as (e1 & <- & He1).
    apply filter_In in He1 as (He1 & _).
    destruct (H e1 He1) as (e0 & He0 & Hc & Hn).
    exists e0. split; [exact He0|].
    destruct (String.eqb (fst e1) f) eqn:E; cbn [fst snd]; [|auto].
    apply String.eqb_eq in E. split; [exact Hc|]. right.
    destruct Hn as [Hn | Hn].
    + unfold with_suffix. rewrite <- Hn, E, Hf. reflexivity.
    + pose proof (with_suffix_ends (fst e0)) as Hends.
      rewrite <- Hn, E in Hends. absurd_bool.
Qed.

Lemma file_entries_nonempty (d : dir) (path : list string) (content : string) :
  In (path, content) (file_entries d) -> path <> [].
Proof.
  destruct d as [files subdirs]. simpl. intros H.
  apply in_app_iff in H as [H | H].
  - apply in_map_iff in H as (e & [= <- _] & _). discriminate.
  - apply in_flat_map in H as (e & _ & H).
    apply in_map_iff in H as (q & [= <- _] & _). discriminate.
Qed.

(** The rename pass invents no file, moves none to another directory
    and changes no content: every file of the repaired tree was in the
    tree before, in the same directory and with the same content,
    under the same name or under that name without the suffix. *)
Theorem repair_keeps_every_file_in_place (d : dir) (path : list string)
    (content : string) :
  In (path, content) (file_entries (repair d)) ->
  exists before,
    In (before, content) (file_entries d)
    /\ (path = before \/ path = with_suffix_path before).
Proof.
  revert path. induction d as [files subdirs IH] using dir_induction.
  intros path H. simpl in H. apply in_app_iff in H as [H | H].
  - apply in_map_iff in H as (e & [= <- <-] & He).
    destruct (pass_provenance subdirs files (map fst files) files O
                (fun e H => ex_intro _ e (conj H (conj eq_refl (or_introl eq_refl))))
                e He) as (e0 & He0 & Hc & Hn).
    exists [fst e0]. split.
    + simpl. apply in_or_app. left. apply in_map_iff. exists e0.
      now rewrite Hc.
    + cbn [with_suffix_path]. destruct Hn as [-> | ->]; auto.
  - apply in_flat_map in H as (e & He & H).
    apply in_map_iff in He as (e0 & <- & He0). cbn [fst snd] in H.
    apply in_map_iff in H as ([q c] & [= <- <-] & Hq). cbn [fst snd].
    rewrite Forall_forall in IH.
    destruct (IH e0 He0 q Hq) as (q0 & Hq0 & Hp).
    exists (fst e0 :: q0). split.
    + simpl. apply in_or_app. right. apply in_flat_map. exists e0.
      split; [exact He0|]. apply in_map_iff. now exists (q0, c).
    + pose proof (file_entries_nonempty _ _ _ Hq0) as Hne.
      destruct q0 as [|x q0]; [contradiction|].
      destruct Hp as [-> | ->]; [now left | now right].
Qed.

(** The file [IM1] of the study directory is found again as [IM1.dcm],
    in place and with its content. *)
Lemma repair_in_place_example :
  exists before,
    In (before, "b")
       (file_entries (Dir [("1.2.840", "a")]
                          [("study", Dir [("IM1", "b"); ("IM2.dcm", "c")] [])]))
    /\ (["study"; "IM1.dcm"] = before
        \/ ["study"; "IM1.dcm"] = with_suffix_path before).
Proof.
  apply (repair_keeps_every_file_in_place
           (Dir [("1.2.840", "a")]
                [("study", Dir [("IM1", "b"); ("IM2.dcm", "c")] [])])
           ["study"; "IM1.dcm"] "b").
  simpl. auto.
Defined.

End SinkCoverage.

(* ================================================================== *)
(** * Further properties of the run as [main] starts it *)
(* ================================================================== *)

Module MainCoverage.

Import PyStr Retriever Observations Main AssociationFacts TransportCoverage.
Local Open Scope Z_scope.

(** Go through the events of a trace given by its pieces. *)
Ltac each_event :=
  repeat match goal with
         | H : In _ (_ ++ _) |- _ => apply in_app_iff in H as [H | H]
         | H : In _ (_ :: _) |- _ => destruct H as [<- | H]
         | H : In _ [] |- _ => contradiction H
         | H : _ = _ \/ _ |- _ => destruct H as [<- | H]
         | H : False |- _ => contradiction H
         end.

(** The same, looking for one given event. *)
Ltac find_event :=
  repeat match goal with
         | H : In _ (_ ++ _) |- _ => apply in_app_iff in H as [H | H]
         | H : In _ (_ :: _) |- _ => destruct H as [H | H]; [try discriminate H|]
         | H : In _ [] |- _ => contradiction H
         end.

Section OneStudy.

Variable cfg : config.
Hypothesis not_dry : dry_run cfg = false.

Lemma find_nm_series_events (p : peer find_response) (study_uid : string)
    (limit : option Z) :
  forall e, In e (snd (find_nm_series p study_uid limit)) -> of_a_study cfg e = true.
Proof.
  intros e H. destruct p as [| |responses].
  - simpl in H. each_event; simpl; now rewrite ?not_dry.
  - simpl in H. each_event; simpl; now rewrite ?not_dry.
  - rewrite find_nm_series_trace in H.
    destruct (snd (series_loop limit (items responses) []));
      [|destruct (stream_end responses)];
      each_event; simpl; now rewrite ?not_dry.
Qed.

Lemma retrieve_with_get_events (image_count : Z) (run : tool_run)
    (ds : RetrieveQuery) :
  use_c_get cfg = true ->
  forall e, In e (snd (_retrieve_with_get cfg image_count run ds)) ->
            of_a_study cfg e = true.
Proof.
  intros Hget e H. unfold _retrieve_with_get in H.
  destruct run as [| | |returncode stdout stderr listing]; simpl in H;
    try (each_event; simpl; now rewrite ?not_dry, ?Hget).
  destruct (returncode =? 0);
    [|simpl in H; each_event; simpl; now rewrite ?not_dry, ?Hget].
  destruct (0 <? parse_completed stdout);
    destruct (0 <? FileSink.renamed_count listing)%nat;
    simpl in H; each_event; simpl; now rewrite ?not_dry, ?Hget.
Qed.

Lemma move_loop_of_a_study (e : event) :
  use_c_get cfg = false -> of_the_move_loop e = true -> of_a_study cfg e = true.
Proof.
  intros Hmove. destruct e as [| | | | | | | | | | |l]; try discriminate;
    intros _; simpl; now rewrite ?not_dry, ?Hmove.
Qed.

Lemma retrieve_with_move_events (image_count : Z) (l : listener)
    (ds : RetrieveQuery) :
  use_c_get cfg = false ->
  forall e, In e (snd (_retrieve_with_move cfg image_count l ds)) ->
            of_a_study cfg e = true.
Proof.
  intros Hmove e H. unfold _retrieve_with_move in H.
  destruct l as [| |[| |responses]]; simpl in H;
    try (each_event; simpl; now rewrite ?not_dry, ?Hmove).
  pose proof (move_loop_events cfg (items responses) image_count) as Hloop.
  destruct (move_loop cfg image_count (items responses)) as [c trace].
  cbn [snd] in Hloop.
  destruct (stream_end responses); cbn [snd] in H; each_event;
    try (simpl; now rewrite ?not_dry, ?Hmove);
    apply move_loop_of_a_study; auto.
Qed.

Lemma series_retrieval_events (w : world) (study_uid : string)
    (nm_series : list Dataset) (image_count : Z) (success : bool) :
  forall e,
    In e (snd (series_retrieval cfg w image_count study_uid nm_series success)) ->
    of_a_study cfg e = true.
Proof.
  revert image_count success.
  induction nm_series as [|series rest IH]; intros image_count success e; simpl.
  - contradiction.
  - assert (Hone : forall e,
              In e (snd (retrieve_series cfg w image_count study_uid series)) ->
              of_a_study cfg e = true).
    { unfold retrieve_series. destruct (use_c_get cfg) eqn:Hget.
      - now apply retrieve_with_get_events.
      - now apply retrieve_with_move_events. }
    destruct (retrieve_series cfg w image_count study_uid series)
      as [[ok c] trace].
    specialize (IH c (if ok then success else false)).
    destruct (series_retrieval cfg w c study_uid rest _) as [[ok' c'] trace'].
    cbn [snd] in *. intros H. apply in_app_iff in H as [H | H]; auto.
Qed.

End OneStudy.

Lemma retrieve_study_events (cfg : config) (w : world) (image_count : Z)
    (study_uid : string) :
  forall e, In e (snd (retrieve_study cfg w image_count study_uid)) ->
            of_a_study cfg e = true.
Proof.
  intros e H. unfold retrieve_study in H.
  destruct (dry_run cfg) eqn:Hdry; [simpl in H; each_event; reflexivity|].
  pose proof (find_nm_series_events cfg Hdry (series_peer w study_uid)
                study_uid None) as Hfind.
  destruct (find_nm_series (series_peer w study_uid) study_uid None)
    as [nm_series found].
  cbn [snd] in Hfind. destruct nm_series as [|series rest].
  - cbn [snd] in H. each_event; auto.
  - pose proof (series_retrieval_events cfg Hdry w study_uid (series :: rest)
                  image_count true) as Hloop.
    destruct (series_retrieval cfg w image_count study_uid (series :: rest) true)
      as [[ok c] trace].
    cbn [snd] in *. each_event; auto.
Qed.

Lemma study_loop_events (cfg : config) (w : world) (max_images : option Z)
    (studies : list Dataset) (image_count : Z) :
  forall e, In e (snd (study_loop cfg w max_images image_count studies)) ->
            of_a_study cfg e = true.
Proof.
  revert image_count.
  induction studies as [|study rest IH]; intros image_count e; simpl.
  - contradiction.
  - pose proof (retrieve_study_events cfg w image_count (StudyInstanceUID study))
      as Hone.
    destruct (retrieve_study cfg w image_count (StudyInstanceUID study))
      as [[ok c] trace].
    cbn [snd] in Hone.
    destruct (image_limit_reached max_images c).
    + cbn [snd]. intros H. each_event; auto.
    + specialize (IH c).
      destruct (study_loop cfg w max_images c rest) as [c' trace'].
      cbn [snd] in *. intros H. each_event; auto.
Qed.

Lemma find_nm_studies_no_side (now : Z) (p : peer find_response)
    (limit : option Z) (study_date : option string) :
  forall e, In e (snd (find_nm_studies now p limit study_date)) ->
            transport_side e = None.
Proof.
  intros e H. unfold find_nm_studies in H. destruct p as [| |responses].
  - simpl in H. each_event; reflexivity.
  - simpl in H. each_event; reflexivity.
  - destruct (stream_end responses);
      [destruct (collect (items responses) [])|];
      simpl in H; each_event; reflexivity.
Qed.

Lemma of_a_study_side (cfg : config) (e : event) (side : bool) :
  of_a_study cfg e = true ->
  transport_side e = Some side ->
  use_c_get cfg = side /\ dry_run cfg = false.
Proof.
  destruct e as [| |lvl key| | | | | | | | |l]; simpl; try discriminate;
    intros H [= <-]; first [apply andb_true_iff in H as (Hg & Hd)];
    apply negb_true_iff in Hd; split; auto;
    now apply negb_true_iff in Hg.
Qed.

(** A run uses one transport and only that one: an event of the
    external tool (its launch, its rename pass) occurs only when the
    retriever was built for C-GET, an event of the listener side
    (server start and shutdown, C-MOVE, directory creation, file save)
    only when it was built for C-MOVE, and neither occurs in a dry
    run. *)
Theorem run_uses_the_configured_transport (cfg : config) (w : world)
    (max_studies max_images : option Z) (image_count : Z)
    (e : event) (side : bool) :
  In e (snd (retrieve_images cfg w max_studies max_images image_count)) ->
  transport_side e = Some side ->
  use_c_get cfg = side /\ dry_run cfg = false.
Proof.
  intros H Hside. unfold retrieve_images in H.
  pose proof (find_nm_studies_no_side (now w) (study_peer w) max_studies
                (study_date cfg)) as Hfind.
  destruct (find_nm_studies (now w) (study_peer w) max_studies (study_date cfg))
    as [studies found].
  cbn [snd] in Hfind. destruct studies as [|study rest].
  - cbn [snd] in H. each_event.
    + rewrite (Hfind _ H) in Hside. discriminate.
    + discriminate.
  - pose proof (study_loop_events cfg w max_images (study :: rest) image_count)
      as Hloop.
    destruct (study_loop cfg w max_images image_count (study :: rest))
      as [c trace].
    cbn [snd] in *. each_event.
    + rewrite (Hfind _ H) in Hside. discriminate.
    + destruct (0 <? total_images (study :: rest)); each_event; discriminate.
    + now apply (of_a_study_side cfg e side (Hloop e H)).
    + discriminate.
Qed.

(** A C-GET run: the launch of the tool is an event of the configured
    side. *)
Lemma configured_transport_example :
  use_c_get (Samples.cfg false true) = true
  /\ dry_run (Samples.cfg false true) = false.
Proof.
  apply (run_uses_the_configured_transport (Samples.cfg false true)
           {| now := Samples.today;
              study_peer := Established (Samples.matches [Samples.A]);
              series_peer := fun study_uid =>
                Established (Samples.matches [Samples.series study_uid "1"]);
              move_listener := fun _ _ => ServerNone;
              getscu := fun _ _ => ToolTimeout |}
           None None 0
           (EvRunTool (getscu_cmd (Samples.cfg false true)
                         {| QueryRetrieveLevel := SERIES;
                            query_StudyInstanceUID := "1.2.1";
                            query_SeriesInstanceUID := Some "1" |}))
           true).
  - simpl. auto 20.
  - reflexivity.
Defined.

(** [main] exits with 2 exactly when the host or the AE title is
    missing or empty, and then before anything happened: no directory,
    no association. With both given, an output directory that cannot
    be made ends the process with 1, again before any network
    activity. *)
Theorem main_stops_on_incomplete_configuration (args : arguments)
    (output_dir_fails : bool) (w : world) :
  (fst (main args output_dir_fails w) = 2
   <-> truthy (host args) = false \/ truthy (aet args) = false)
  /\ (fst (main args output_dir_fails w) = 2 ->
      snd (main args output_dir_fails w) = [])
  /\ (truthy (host args) = true -> truthy (aet args) = true ->
      main args true w = (1, [EvMkdir [output args]])).
Proof.
  unfold main.
  destruct (truthy (host args)), (truthy (aet args)); cbn [negb].
  - destruct output_dir_fails.
    + cbn [fst snd]. intuition (first [discriminate | reflexivity]).
    + destruct (retrieve_images (retriever_config args) w (max_studies args)
                  (max_images args) 0) as [c trace].
      cbn [fst snd]. intuition (first [discriminate | reflexivity]).
  - cbn [fst snd]. intuition (first [discriminate | reflexivity]).
  - cbn [fst snd]. intuition (first [discriminate | reflexivity]).
  - cbn [fst snd]. intuition (first [discriminate | reflexivity]).
Qed.

(** Run through [main] with [--dry-run], the only thing written is the
    output directory, which the constructor makes before it looks at
    the flag; no series is looked up and no transport is called. *)
Theorem main_dry_run_makes_the_output_directory (args : arguments) (w : world) :
  truthy (host args) = true ->
  truthy (aet args) = true ->
  arg_dry_run args = true ->
  let run := main args false w in
  fst run = 0
  /\ hd_error (snd run) = Some (EvMkdir [output args])
  /\ count is_fs_write (snd run) = 1%nat
  /\ count is_transport (snd run) = O
  /\ count is_series_find (snd run) = O.
Proof.
  intros Hhost Haet Hdry. cbv zeta. unfold main. rewrite Hhost, Haet. cbn [negb].
  destruct (RunCoverage.retrieve_images_dry (retriever_config args) w
              (max_studies args) (max_images args) 0 Hdry)
    as (_ & Hs & Ht & Hw).
  destruct (retrieve_images (retriever_config args) w (max_studies args)
              (max_images args) 0) as [c trace].
  cbn [fst snd] in *. rewrite !count_cons, Hs, Ht, Hw.
  repeat split; reflexivity.
Qed.

(** The study query of a run started by [main] carries the date range
    resolved from [--study-date], [--from-date] and [--to-date], and it
    is never empty. *)
Theorem main_queries_the_resolved_range (args : arguments)
    (output_dir_fails : bool) (w : world) (key : string) :
  In (EvCFind STUDY key) (snd (main args output_dir_fails w)) ->
  key = resolve_date_range (now w) (arg_study_date args) (from_date args)
          (to_date args)
  /\ key <> EmptyString.
Proof.
  unfold main.
  destruct (truthy (host args)); cbn [negb]; [|contradiction].
  destruct (truthy (aet args)); cbn [negb]; [|contradiction].
  destruct output_dir_fails; [intros [H | []]; discriminate|].
  unfold retrieve_images.
  pose proof (FindCoverage.find_nm_studies_query (now w) (study_peer w)
                (max_studies args) (study_date (retriever_config args))
                STUDY key) as Hfind.
  destruct (find_nm_studies (now w) (study_peer w) (max_studies args)
              (study_date (retriever_config args))) as [studies found].
  cbn [snd] in Hfind.
  assert (Hkey : In (EvCFind STUDY key) found ->
                 key = resolve_date_range (now w) (arg_study_date args)
                         (from_date args) (to_date args)
                 /\ key <> EmptyString).
  { intros H. destruct (Hfind H) as (_ & ->). split; [reflexivity|].
    apply FindCoverage.query_date_not_empty. }
  destruct studies as [|study rest].
  - cbn [snd]. intros H. find_event. auto.
  - pose proof (study_loop_events (retriever_config args) w (max_images args)
                  (study :: rest) 0) as Hloop.
    destruct (study_loop (retriever_config args) w (max_images args) 0
                (study :: rest)) as [c trace].
    cbn [snd] in *. intros H. find_event.
    + auto.
    + destruct (0 <? total_images (study :: rest)); find_event.
    + specialize (Hloop _ H). discriminate.
Qed.

(** A dry run from the command line, with a lone [--from-date]. *)
Lemma main_dry_run_example :
  let args := {| host := Some "pacs.example.org"; port := 104; aet := Some "PACS";
                 arg_local_aet := "MY_LOCAL_AET"; arg_local_port := 11112;
                 output := "./nm_images"; max_studies := Some 5;
                 max_images := None; arg_study_date := None;
                 from_date := Some "20210101"; to_date := None;
                 use_c_move := false; patient_root := false;
                 arg_dry_run := true |} in
  let w := {| now := Samples.today;
              study_peer := Established (Samples.matches [Samples.A; Samples.B]);
              series_peer := fun _ => Rejected;
              move_listener := fun _ _ => ServerNone;
              getscu := fun _ _ => ToolMissing |} in
  fst (main args false w) = 0
  /\ hd_error (snd (main args false w)) = Some (EvMkdir ["./nm_images"])
  /\ count is_fs_write (snd (main args false w)) = 1%nat
  /\ count is_transport (snd (main args false w)) = O
  /\ count is_series_find (snd (main args false w)) = O.
Proof.
  cbv zeta.
  apply (main_dry_run_makes_the_output_directory
           {| host := Some "pacs.example.org"; port := 104; aet := Some "PACS";
              arg_local_aet := "MY_LOCAL_AET"; arg_local_port := 11112;
              output := "./nm_images"; max_studies := Some 5;
              max_images := None; arg_study_date := None;
              from_date := Some "20210101"; to_date := None;
              use_c_move := false; patient_root := false;
              arg_dry_run := true |}
           {| now := Samples.today;
              study_peer := Established (Samples.matches [Samples.A; Samples.B]);
              series_peer := fun _ => Rejected;
              move_listener := fun _ _ => ServerNone;
              getscu := fun _ _ => ToolMissing |}
           eq_refl eq_refl eq_refl).
Defined.

(** The query that run sends. *)
Lemma main_query_example :
  "20210101-29991231"
  = resolve_date_range Samples.today None (Some "20210101") None
  /\ "20210101-29991231" <> EmptyString.
Proof.
  apply (main_queries_the_resolved_range
           {| host := Some "pacs.example.org"; port := 104; aet := Some "PACS";
              arg_local_aet := "MY_LOCAL_AET"; arg_local_port := 11112;
              output := "./nm_images"; max_studies := Some 5;
              max_images := None; arg_study_date := None;
              from_date := Some "20210101"; to_date := None;
              use_c_move := false; patient_root := false;
              arg_dry_run := true |}
           false
           {| now := Samples.today;
              study_peer := Established (Samples.matches [Samples.A; Samples.B]);
              series_peer := fun _ => Rejected;
              move_listener := fun _ _ => ServerNone;
              getscu := fun _ _ => ToolMissing |}
           "20210101-29991231").
  simpl. auto.
Defined.

End MainCoverage.
